(** * fastapi_youtube_transcript: a shallow embedding of [app.py]

    The service extracts a YouTube video identifier from a URL, serves a
    cached transcript when one is stored, and otherwise fetches captions and
    metadata, formats them, checks a minimum length and stores the result in
    an SQLite table.

    Conventions of the embedding:
    - a Python [str] is a [string]; each [ascii] stands for one character, so
      [len] is [String.length];
    - a caption start offset is a rational number: Python's [divmod] on an
      [int] is exact, and on a [float] in the range of caption offsets
      (non-negative, below 2^53) it is exact too, so exact arithmetic on [Q]
      describes both;
    - a raised exception is the [Err] case of [result]; code that raises after
      a side effect keeps the side effect (state passing in [App.M]);
    - the collaborators that live outside the repository ([urlparse] and
      [unquote] of urllib, the caption service, the HTTP client, the clock)
      are parameters. *)

From Stdlib Require Import ZArith QArith Qround String Ascii List Lia Bool.
From Stdlib Require Import DecimalString.
From stdpp Require Import base option list gmap strings.

Local Open Scope string_scope.
Local Open Scope Z_scope.

(** ** Python values, exceptions and string methods *)

Module Py.

(** The exceptions the program can meet.  [ExternalError] stands for whatever
    a collaborator raises (network failure, no captions, bad JSON); its
    argument is [str(e)]. *)
Inductive exn : Type :=
| ValueError (msg : string)
| KeyError (key : string)
| IndexError (msg : string)
| TypeError (msg : string)
| AssertionError
| ExternalError (msg : string)
| HTTPException (status_code : Z) (detail : string).

Inductive result (A : Type) : Type :=
| Ok (a : A)
| Err (e : exn).
Arguments Ok {A} a.
Arguments Err {A} e.

Definition rbind {A B} (r : result A) (k : A -> result B) : result B :=
  match r with
  | Ok a => k a
  | Err e => Err e
  end.

(** [str(e)]: the message for the built-in exceptions, the [repr] of the key
    for a [KeyError]. *)
Definition str_exn (e : exn) : string :=
  match e with
  | ValueError m => m
  | KeyError k => "'" ++ k ++ "'"
  | IndexError m => m
  | TypeError m => m
  | AssertionError => ""
  | ExternalError m => m
  | HTTPException c d => d
  end.

(** [s.lstrip(c)] for a one-character set. *)
Fixpoint lstrip (c : ascii) (s : string) : string :=
  match s with
  | String a s' => if Ascii.eqb a c then lstrip c s' else s
  | EmptyString => EmptyString
  end.

(** [s.split(c)] for a one-character separator: never empty, one more item
    than there are separators. *)
Fixpoint split (c : ascii) (s : string) : list string :=
  match s with
  | EmptyString => [EmptyString]
  | String a s' =>
      if Ascii.eqb a c then EmptyString :: split c s'
      else match split c s' with
           | w :: ws => String a w :: ws
           | [] => [String a EmptyString]
           end
  end.

(** [s.split(c, 1)]: cut at the first separator only. *)
Fixpoint split1 (c : ascii) (s : string) : list string :=
  match s with
  | EmptyString => [EmptyString]
  | String a s' =>
      if Ascii.eqb a c then [EmptyString; s']
      else match split1 c s' with
           | w :: ws => String a w :: ws
           | [] => [String a EmptyString]
           end
  end.

(** [s.replace(a, b)] for single characters. *)
Fixpoint replace (a b : ascii) (s : string) : string :=
  match s with
  | EmptyString => EmptyString
  | String x s' => String (if Ascii.eqb x a then b else x) (replace a b s')
  end.

(** [s.startswith(prefixes)] with a tuple of prefixes. *)
Definition startswith (s : string) (prefixes : list string) : bool :=
  existsb (fun p => String.prefix p s) prefixes.

(** [sep.join(items)]. *)
Definition join (sep : string) (items : list string) : string :=
  String.concat sep items.

(** The characters [str.strip()] removes, among the first 256 code points. *)
Definition isspace (a : ascii) : bool :=
  let n := N_of_ascii a in
  ((9 <=? n) && (n <=? 13) || (28 <=? n) && (n <=? 32)
   || (n =? 133) || (n =? 160))%N.

Fixpoint lstrip_space (s : string) : string :=
  match s with
  | String a s' => if isspace a then lstrip_space s' else s
  | EmptyString => EmptyString
  end.

Fixpoint rstrip_space (s : string) : string :=
  match s with
  | EmptyString => EmptyString
  | String a s' =>
      match rstrip_space s' with
      | EmptyString => if isspace a then EmptyString else String a EmptyString
      | r => String a r
      end
  end.

(** [s.strip()]. *)
Definition strip (s : string) : string := rstrip_space (lstrip_space s).

(** [len(s)] as a Python [int]. *)
Definition len (s : string) : Z := Z.of_nat (String.length s).

(** [divmod(x, d)] for a positive integer divisor: floor quotient and the
    remainder of the same sign as the divisor.  This is what Python computes
    on an [int], and on a [float] from 0 up to 2^53, where [fmod], the
    subtraction and the division of float [divmod] are exact.  On a negative
    float, or one of 2^53 or more, float [divmod] rounds and can differ; the
    theorem on the stamps is stated for the range only. *)
Definition divmod (x : Q) (d : Z) : Q * Q :=
  let q := Qfloor (x / inject_Z d) in
  (inject_Z q, x - inject_Z q * inject_Z d)%Q.

(** [int(x)]: truncation towards zero. *)
Definition int (x : Q) : Z := Z.quot (Qnum x) (Zpos (Qden x)).

Definition str_of_nonneg (n : Z) : string :=
  NilZero.string_of_uint (N.to_uint (Z.to_N n)).

(** [f"{n:02}"]: sign-aware zero padding to width 2. *)
Definition format_02 (n : Z) : string :=
  if n <? 0 then "-" ++ str_of_nonneg (- n)
  else if n <? 10 then "0" ++ str_of_nonneg n
  else str_of_nonneg n.

End Py.

(** ** The SQLite table [videos] *)

Module Sqlite.

(** One row of
    [videos(id INTEGER PRIMARY KEY AUTOINCREMENT, video_id TEXT UNIQUE, url,
    title, description, transcript, processed_at)]. *)
Record Row : Type := {
  id : Z;
  video_id : string;
  url : string;
  title : string;
  description : string;
  transcript : string;
  processed_at : Z
}.

(** The table: its rows in rowid order, and the largest rowid ever used, which
    AUTOINCREMENT keeps in [sqlite_sequence]. *)
Record Table : Type := {
  rows : list Row;
  sqlite_sequence : Z
}.

Definition empty : Table := {| rows := []; sqlite_sequence := 0 |}.

(** [CREATE TABLE IF NOT EXISTS videos (...)] on a database file that has the
    table ([Some]) or not ([None]). *)
Definition create_table_if_not_exists (file : option Table) : Table :=
  match file with
  | Some t => t
  | None => empty
  end.

(** The rowid AUTOINCREMENT gives to a row inserted without an [id]. *)
Definition next_rowid (t : Table) : Z :=
  1 + fold_right Z.max (sqlite_sequence t) (map id (rows t)).

(** A stored row stands in the way of a new one when the PRIMARY KEY or the
    UNIQUE column agree. *)
Definition conflicts (new old : Row) : bool :=
  (id old =? id new) || String.eqb (video_id old) (video_id new).

(** [INSERT OR REPLACE INTO videos (video_id, url, title, description,
    transcript, processed_at) VALUES (?, ?, ?, ?, ?, ?)]: the rows in conflict
    are deleted, then the new row is inserted. *)
Definition insert_or_replace
    (v u ti de tr : string) (ts : Z) (t : Table) : Table :=
  let new := {| id := next_rowid t; video_id := v; url := u; title := ti;
                description := de; transcript := tr; processed_at := ts |} in
  {| rows := (List.filter (fun old => negb (conflicts new old)) (rows t) ++ [new])%list;
     sqlite_sequence := id new |}.

(** [SELECT ... FROM videos WHERE video_id = ?] followed by [fetchone()]. *)
Definition select_by_video_id (v : string) (t : Table) : option Row :=
  List.find (fun r => String.eqb (video_id r) v) (rows t).

(** [SELECT video_id FROM videos] followed by [fetchall()].  The statement
    has no ORDER BY: SQL leaves the order of the answer open, and SQLite reads
    it off the index of the UNIQUE column, sorted by [video_id].  The list
    here is in rowid order; it has the identifiers and the count of the real
    answer, and only such order-free facts are stated about it. *)
Definition select_video_ids (t : Table) : list string :=
  map video_id (rows t).

(** [SELECT COUNT] of all rows of [videos], followed by [fetchone()[0]]. *)
Definition select_count (t : Table) : Z :=
  Z.of_nat (List.length (rows t)).

End Sqlite.

(** ** The functions of [app.py] *)

Module App.
Import Py.

(** The fields of [urlparse]'s result that the program reads.  [hostname] is
    [None] when the URL has no network location. *)
Record ParseResult : Type := {
  hostname : option string;
  path : string;
  query : string
}.

(** A caption fragment as the caption service returns it. *)
Record Entry : Type := {
  start : Q;
  text : string
}.

(** The body of a [videos.list] answer of the YouTube Data API, as far as the
    program reads it: [data['items'][i]['snippet']['title']].  The types take
    a decoded body to have the shape the API documents: an object whose
    [items], when present, is a list of objects, and whose snippets carry a
    string [title] and a string [description].  A body of another shape
    (a snippet without [title], [items] that is no list) makes the code raise
    a [KeyError] or [TypeError] that these types do not have; no statement
    below lists the exceptions of a decoded body as complete. *)
Record Snippet : Type := {
  snippet_title : string;
  snippet_description : string
}.

Record Item : Type := {
  snippet : option Snippet
}.

Record Body : Type := {
  items : option (list Item)
}.

(** What [requests.get] returns: the status and the outcome of
    [response.json()]. *)
Record Response : Type := {
  status_code : Z;
  json : result Body
}.

(** The dictionary [get_video_description] returns. *)
Record Metainfo : Type := {
  meta_title : string;
  meta_description : string
}.

(** The dictionary [get_video_from_db] returns. *)
Record VideoData : Type := {
  data_title : string;
  data_description : string;
  data_transcript : string
}.

(** The dictionary the endpoint returns: [{"transcript": ...}]. *)
Record Reply : Type := {
  reply_transcript : string
}.

(** What a request sees of the outside: the [config] dictionary read from
    [.env] (a key may be present without a value), the caption service, the
    HTTP client and the clock. *)
Record Env : Type := {
  config : gmap string (option string);
  YouTubeTranscriptApi_get_transcript :
    string -> list string -> result (list Entry);
  requests_get : string -> result Response;
  datetime_now : Z
}.

Definition LF : ascii := "010"%char.
Definition nl : string := String LF EmptyString.

(** *** Store access *)

Definition init_db (file : option Sqlite.Table) : Sqlite.Table :=
  Sqlite.create_table_if_not_exists file.

Definition insert_video_data (now : Z)
    (video_id url title description transcript : string)
    (t : Sqlite.Table) : Sqlite.Table :=
  Sqlite.insert_or_replace video_id url title description transcript now t.

(** [if result:] tests a tuple of three columns, which is never empty: the
    branch is taken exactly when [fetchone()] found a row. *)
Definition get_video_from_db (video_id : string) (t : Sqlite.Table)
  : option VideoData :=
  match Sqlite.select_by_video_id video_id t with
  | Some result =>
      Some {| data_title := Sqlite.title result;
              data_description := Sqlite.description result;
              data_transcript := Sqlite.transcript result |}
  | None => None
  end.

(** The response model of [GET /get_database_status]. *)
Record DatabaseStatus : Type := {
  total_videos : Z;
  video_ids : list string
}.

(** The two queries of the status endpoint.  Its [except] branch answers an
    error of SQLite, which the embedding takes not to occur. *)
Definition get_database_status (t : Sqlite.Table) : DatabaseStatus :=
  let total_videos := Sqlite.select_count t in
  let video_ids := Sqlite.select_video_ids t in
  {| total_videos := total_videos; video_ids := video_ids |}.

(** *** Metadata *)

Definition not_available : Metainfo :=
  {| meta_title := "not available"; meta_description := "not available" |}.

Definition NaN : Metainfo :=
  {| meta_title := "NaN"; meta_description := "NaN" |}.

(** The body of the [try]: [config["YOUTUBE_KEY"]] and the assertion on its
    length. *)
Definition obtain_api_key (cfg : gmap string (option string)) : result string :=
  match cfg !! "YOUTUBE_KEY" with
  | None => Err (KeyError "YOUTUBE_KEY")
  | Some None => Err (TypeError "object of type 'NoneType' has no len()")
  | Some (Some api_key) =>
      if 10 <? len api_key then Ok api_key else Err AssertionError
  end.

Definition api_url (video_id api_key : string) : string :=
  "https://www.googleapis.com/youtube/v3/videos?part=snippet&id="
  ++ video_id ++ "&key=" ++ api_key.

Definition get_video_description (env : Env) (video_id : string)
  : result Metainfo :=
  match obtain_api_key (config env) with
  | Err _ => Ok not_available
  | Ok api_key =>
      let url := api_url video_id api_key in
      rbind (requests_get env url) (fun response =>
      if status_code response =? 200 then
        rbind (json response) (fun data =>
        match items data with
        | Some (item :: _) =>
            match snippet item with
            | Some sn => Ok {| meta_title := snippet_title sn;
                               meta_description := snippet_description sn |}
            | None => Err (KeyError "snippet")
            end
        | Some [] | None => Ok NaN
        end)
      else Ok NaN)
  end.

(** *** Formatting *)

Definition format_entry (entry : Entry) : string :=
  let start_time := start entry in
  let '(hours, remainder) := divmod start_time 3600 in
  let '(minutes, seconds) := divmod remainder 60 in
  let timestamp :=
    format_02 (int hours) ++ ":" ++ format_02 (int minutes) ++ ":"
    ++ format_02 (int seconds) in
  "[" ++ timestamp ++ "] " ++ text entry.

(** The loop appends one line per entry to [formatted_transcript]. *)
Definition format_transcript_with_timestamps (transcript : list Entry)
  : string :=
  let formatted_transcript :=
    fold_left (fun acc entry => (acc ++ [format_entry entry])%list)
              transcript [] in
  join nl formatted_transcript.

(** *** Identifier extraction

    [urlparse] and [unquote] come from urllib; [parse_qsl] and [parse_qs]
    follow urllib's code with the default arguments (separator [&], blank
    values dropped, no strict parsing). *)

Section Urllib.

Variable urlparse : string -> result ParseResult.
Variable unquote : string -> string.

Definition parse_qsl (qs : string) : list (string * string) :=
  let query_args := if String.eqb qs "" then [] else split "&" qs in
  fold_left (fun r name_value =>
    if String.eqb name_value "" then r
    else match split1 "=" name_value with
         | [n; v] =>
             if 0 <? len v then
               (r ++ [(unquote (replace "+" " " n),
                       unquote (replace "+" " " v))])%list
             else r
         | _ => r
         end) query_args [].

Definition parse_qs (qs : string) : gmap string (list string) :=
  fold_left (fun parsed_result '(name, value) =>
    match parsed_result !! name with
    | Some values => <[name := (values ++ [value])%list]> parsed_result
    | None => <[name := [value]]> parsed_result
    end) (parse_qsl qs) ∅.

Definition hostname_in (p : ParseResult) (hosts : list string) : bool :=
  match hostname p with
  | Some h => existsb (String.eqb h) hosts
  | None => false
  end.

Definition get_video_id (youtube_url : string) : result string :=
  rbind (urlparse youtube_url) (fun parsed_url =>
  if hostname_in parsed_url ["youtu.be"; "www.youtu.be"] then
    Ok (lstrip "/" (path parsed_url))
  else if hostname_in parsed_url ["youtube.com"; "www.youtube.com"] then
    if String.eqb (path parsed_url) "/watch" then
      match parse_qs (query parsed_url) !! "v" with
      | Some (v :: _) => Ok v
      | Some [] => Err (IndexError "list index out of range")
      | None => Err (KeyError "v")
      end
    else if startswith (path parsed_url) ["/embed/"; "/v/"] then
      match nth_error (split "/" (path parsed_url)) 2 with
      | Some segment => Ok segment
      | None => Err (IndexError "list index out of range")
      end
    else Err (ValueError "Invalid YouTube URL")
  else Err (ValueError "Invalid YouTube URL")).

(** *** The endpoint [POST /get_transcript/]

    The handler runs in a state and exception monad.  The state is the table
    and a log of the steps taken, kept only to state which steps a request
    ran; an exception leaves the state as it was when it was raised. *)

Inductive Event : Type :=
| EvCacheLookup (video_id : string)
| EvFetchTranscript (video_id : string)
| EvFetchMetadata (video_id : string)
| EvFormat
| EvValidate
| EvPersist (video_id : string).

Record World : Type := {
  db : Sqlite.Table;
  trace : list Event
}.

Definition M (A : Type) : Type := World -> result A * World.

Definition ret {A} (a : A) : M A := fun w => (Ok a, w).

Definition raise {A} (e : exn) : M A := fun w => (Err e, w).

Definition bind {A B} (m : M A) (k : A -> M B) : M B :=
  fun w => match m w with
           | (Ok a, w') => k a w'
           | (Err e, w') => (Err e, w')
           end.

Definition lift {A} (r : result A) : M A := fun w => (r, w).

Definition log (ev : Event) : M unit :=
  fun w => (Ok tt, {| db := db w; trace := (trace w ++ [ev])%list |}).

Definition read_db {A} (f : Sqlite.Table -> A) : M A :=
  fun w => (Ok (f (db w)), w).

Definition write_db (f : Sqlite.Table -> Sqlite.Table) : M unit :=
  fun w => (Ok tt, {| db := f (db w); trace := trace w |}).

(** [try: m except Exception as e: raise h(e)]. *)
Definition try_except {A} (m : M A) (h : exn -> exn) : M A :=
  fun w => match m w with
           | (Ok a, w') => (Ok a, w')
           | (Err e, w') => (Err (h e), w')
           end.

Notation "x <- m ;; k" := (bind m (fun x => k))
  (at level 100, m at next level, right associativity).
Notation "m ;;; k" := (bind m (fun _ => k))
  (at level 100, right associativity).

Definition get_transcript_try (env : Env) (request_url : string) : M Reply :=
  video_id <- lift (get_video_id request_url) ;;
  existing_data <-
    (log (EvCacheLookup video_id) ;;; read_db (get_video_from_db video_id)) ;;
  match existing_data with
  | Some data => ret {| reply_transcript := data_transcript data |}
  | None =>
      transcript <-
        (log (EvFetchTranscript video_id) ;;;
         lift (YouTubeTranscriptApi_get_transcript env video_id ["en"; "fi"])) ;;
      metainfo <-
        (log (EvFetchMetadata video_id) ;;;
         lift (get_video_description env video_id)) ;;
      formatted_transcript <-
        (log EvFormat ;;;
         ret (format_transcript_with_timestamps transcript)) ;;
      log EvValidate ;;;
      if len formatted_transcript <=? 500 then
        raise (ValueError "Transcript too short!")
      else
        let formatted_transcript :=
          formatted_transcript ++ nl ++ "END_OF_TRANSCRIPT" in
        let output :=
          "Title: " ++ strip (meta_title metainfo) ++ nl ++ nl
          ++ formatted_transcript in
        log (EvPersist video_id) ;;;
        write_db (insert_video_data (datetime_now env) video_id request_url
                    (meta_title metainfo) (meta_description metainfo) output) ;;;
        ret {| reply_transcript := output |}
  end.

Definition get_transcript (env : Env) (request_url : string) : M Reply :=
  try_except (get_transcript_try env request_url)
    (fun e => HTTPException 500
                ("Failed to obtain transcript: " ++ str_exn e)).

End Urllib.

End App.

(** ** Concrete collaborators for the examples *)

Module Examples.
Import Py App.

Definition parsed (h p q : string) : result ParseResult :=
  Ok {| hostname := Some h; path := p; query := q |}.

(** [urlparse] at the URLs the examples use.  [Err] marks a string outside
    this table; it is not a value of urllib's function. *)
Definition urlparse_table (u : string) : result ParseResult :=
  if String.eqb u "https://www.youtube.com/watch?v=aQ4yQXeB1Ss"
  then parsed "www.youtube.com" "/watch" "v=aQ4yQXeB1Ss"
  else if String.eqb u "https://www.youtube.com/watch?t=10&v=&v=first&v=second"
  then parsed "www.youtube.com" "/watch" "t=10&v=&v=first&v=second"
  else if String.eqb u "https://www.youtube.com/watch?list=PL1"
  then parsed "www.youtube.com" "/watch" "list=PL1"
  else if String.eqb u "https://youtu.be/abc123"
  then parsed "youtu.be" "/abc123" ""
  else if String.eqb u "https://youtu.be//abc123"
  then parsed "youtu.be" "//abc123" ""
  else if String.eqb u "https://youtu.be/"
  then parsed "youtu.be" "/" ""
  else if String.eqb u "https://youtube.com/embed/"
  then parsed "youtube.com" "/embed/" ""
  else if String.eqb u "https://www.youtube.com/embed/abc123/extra"
  then parsed "www.youtube.com" "/embed/abc123/extra" ""
  else if String.eqb u "https://youtube.com/v/abc123"
  then parsed "youtube.com" "/v/abc123" ""
  else if String.eqb u "https://www.youtube.com/playlist?list=PL1"
  then parsed "www.youtube.com" "/playlist" "list=PL1"
  else if String.eqb u "https://vimeo.com/watch?v=abc123"
  then parsed "vimeo.com" "/watch" "v=abc123"
  else Err (ExternalError "URL outside the table").

(** [unquote] on a string without [%] escapes, as in the table's queries. *)
Definition unquote_plain (s : string) : string := s.

Definition hello_world : list Entry :=
  [ {| start := 0; text := "Hello" |}; {| start := 65; text := "World" |} ].

(** Thirty-two fragments, one every 2.5 seconds from 59:50 on. *)
Definition lecture : list Entry :=
  map (fun i : nat =>
         {| start := (inject_Z 3590 + inject_Z (Z.of_nat i) * (5 # 2))%Q;
            text := "and so on" |})
      (seq 0 32).

Definition line_of (n : nat) : list Entry :=
  [ {| start := 0; text := string_of_list_ascii (repeat "x"%char n) |} ].

Definition api_answer : Response :=
  {| status_code := 200;
     json := Ok {| items := Some
       [ {| snippet := Some {| snippet_title := "  A lecture ";
                               snippet_description := "Recorded talk" |} |} ] |} |}.

Definition api_empty : Response :=
  {| status_code := 200; json := Ok {| items := Some [] |} |}.

Definition api_no_items : Response :=
  {| status_code := 200; json := Ok {| items := None |} |}.

Definition api_forbidden : Response :=
  {| status_code := 403; json := Ok {| items := None |} |}.

Definition key_config (k : option string) : gmap string (option string) :=
  {[ "YOUTUBE_KEY" := k ]}.

Definition env_of (cfg : gmap string (option string))
    (captions : result (list Entry)) (answer : result Response) : Env :=
  {| config := cfg;
     YouTubeTranscriptApi_get_transcript := fun _ _ => captions;
     requests_get := fun _ => answer;
     datetime_now := 1700000000 |}.

Definition good_key : gmap string (option string) :=
  key_config (Some "AIzaSyExampleKey0123").

Definition env_lecture : Env := env_of good_key (Ok lecture) (Ok api_answer).

Definition env_hello_world : Env :=
  env_of good_key (Ok hello_world) (Ok api_answer).

Definition env_line (n : nat) : Env :=
  env_of good_key (Ok (line_of n)) (Ok api_answer).

(** Every collaborator fails. *)
Definition env_dead : Env :=
  env_of ∅ (Err (ExternalError "No captions"))
    (Err (ExternalError "Connection refused")).

Definition env_offline : Env :=
  env_of good_key (Ok lecture) (Err (ExternalError "Connection refused")).

Definition fresh : World := {| db := Sqlite.empty; trace := [] |}.

End Examples.

(** ** The specification's own wording, to compare the code with *)

Module Spec.
Import Py App.

(** [HH:MM:SS] of a whole number of seconds; the hours are not reduced
    modulo 24. *)
Definition hms (seconds : Z) : string :=
  format_02 (seconds / 3600) ++ ":" ++ format_02 (seconds mod 3600 / 60)
  ++ ":" ++ format_02 (seconds mod 60).

(** One fragment rendered as [[HH:MM:SS] <text>], the start time floored to
    whole seconds. *)
Definition rendered (entry : Entry) : string :=
  "[" ++ hms (Qfloor (start entry)) ++ "] " ++ text entry.

(** A run of [n] slashes. *)
Definition slashes (n : nat) : string :=
  string_of_list_ascii (repeat "/"%char n).

Definition short_host (p : ParseResult) : Prop :=
  hostname p = Some "youtu.be" \/ hostname p = Some "www.youtu.be".

Definition canonical_host (p : ParseResult) : Prop :=
  hostname p = Some "youtube.com" \/ hostname p = Some "www.youtube.com".

(** A path that begins with a given prefix. *)
Definition begins_with (prefix s : string) : Prop :=
  exists rest, s = prefix ++ rest.

(** The values a query string gives to a parameter, in the order of the
    query: the decoded values of its non-blank [name=value] fields. *)
Definition query_values (unquote : string -> string) (name qs : string)
  : list string :=
  map snd (List.filter (fun nv => String.eqb (fst nv) name)
             (parse_qsl unquote qs)).

(** The arguments of one call of [insert_video_data], with the clock reading
    it takes. *)
Record InsertCall : Type := {
  call_now : Z;
  call_video_id : string;
  call_url : string;
  call_title : string;
  call_description : string;
  call_transcript : string
}.

Definition perform (t : Sqlite.Table) (c : InsertCall) : Sqlite.Table :=
  insert_video_data (call_now c) (call_video_id c) (call_url c)
    (call_title c) (call_description c) (call_transcript c) t.

(** How many rows carry a given [video_id]. *)
Definition rows_with (v : string) (t : Sqlite.Table) : nat :=
  List.length (List.filter (fun r => String.eqb (Sqlite.video_id r) v)
                 (Sqlite.rows t)).

(** The world after a request that logged [events] and left the table as it
    was. *)
Definition logged (w : World) (events : list Event) : World :=
  {| db := db w; trace := (trace w ++ events)%list |}.

(** What the endpoint stores and returns for a title and a formatted body. *)
Definition titled (title body : string) : string :=
  "Title: " ++ strip title ++ nl ++ nl ++ body ++ nl ++ "END_OF_TRANSCRIPT".

(** The last call of a sequence that wrote a given identifier. *)
Definition last_call (v : string) (calls : list InsertCall)
  : option InsertCall :=
  List.find (fun c => String.eqb (call_video_id c) v) (rev calls).

(** One request to [POST /get_transcript/]: what the collaborators would
    answer while it runs, and the URL of its body. *)
Record Request : Type := {
  request_env : Env;
  request_url : string
}.

(** The sum of the lengths a transcript's lines take when every stamp has
    two-digit hours: eleven characters of stamp, the text, and a newline. *)
Definition lines_length (transcript : list Entry) : Z :=
  fold_right (fun entry n => 12 + len (text entry) + n) 0 transcript.

(** The start offsets on which the embedding's exact [divmod] is the
    [divmod] of the code: from 0 up to 2^53 seconds. *)
Definition caption_offset (x : Q) : Prop :=
  (0 <= x)%Q /\ (x < inject_Z (2 ^ 53))%Q.

Definition has_newline (s : string) : Prop :=
  In LF (list_ascii_of_string s).

End Spec.

(** ** Facts about the Python primitives *)

Module PyFacts.
Import Py.

Lemma Qfloor_divmod_quotient (x : Q) (d : Z) :
  0 < d -> Qfloor (x / inject_Z d) = Qfloor x / d.
Proof.
  intros Hd. destruct d as [|p|p]; try lia.
  destruct x as [n m]. unfold Qfloor, Qdiv, Qmult, Qinv, inject_Z. simpl.
  rewrite Z.mul_1_r, Pos2Z.inj_mul.
  rewrite Z.div_div by lia. reflexivity.
Qed.

Lemma Qfloor_divmod_remainder (x : Q) (q d : Z) :
  Qfloor (x - inject_Z q * inject_Z d) = Qfloor x - q * d.
Proof.
  destruct x as [n m]. unfold Qfloor, Qminus, Qplus, Qopp, Qmult, inject_Z.
  simpl.
  transitivity ((n + (- (q * d)) * Z.pos m) / Z.pos m).
  - f_equal; lia.
  - rewrite Z.div_add by lia. lia.
Qed.

Lemma int_inject_Z (n : Z) : int (inject_Z n) = n.
Proof. unfold int, inject_Z. simpl. apply Z.quot_1_r. Qed.

Lemma int_nonneg (x : Q) : 0 <= Qfloor x -> int x = Qfloor x.
Proof.
  destruct x as [n m]. unfold int, Qfloor. simpl. intros H.
  assert (0 <= n).
  { destruct (Z.lt_ge_cases n 0) as [Hn|Hn]; [|exact Hn].
    pose proof (Z.div_lt_upper_bound n (Z.pos m) 0 ltac:(lia) ltac:(lia)). lia. }
  apply Z.quot_div_nonneg; lia.
Qed.

Lemma format_02_table :
  forallb (fun k => Nat.eqb (String.length (format_02 (Z.of_nat k))) 2)
    (seq 0 100) = true.
Proof. vm_compute. reflexivity. Qed.

(** Below 100 the field has exactly two digits. *)
Lemma format_02_width (n : Z) :
  0 <= n < 100 -> String.length (format_02 n) = 2%nat.
Proof.
  intros H. pose proof format_02_table as T.
  rewrite forallb_forall in T. specialize (T (Z.to_nat n)).
  rewrite Z2Nat.id in T by lia. apply Nat.eqb_eq, T, in_seq. lia.
Qed.

Lemma lstrip_decompose (c : ascii) (s : string) :
  exists n : nat,
    s = string_of_list_ascii (repeat c n) ++ lstrip c s
    /\ String.prefix (String c "") (lstrip c s) = false.
Proof.
  induction s as [|a s [n [E P]]]; simpl.
  - exists 0%nat. split; reflexivity.
  - destruct (Ascii.eqb_spec a c) as [->|Hne].
    + exists (S n). split; [|exact P].
      change (String c s = String c (string_of_list_ascii (repeat c n) ++ lstrip c s)).
      now rewrite <- E.
    + exists 0%nat. simpl. split; [reflexivity|].
      destruct (ascii_dec c a); [congruence|reflexivity].
Qed.

Lemma prefix_append (p s : string) :
  String.prefix p s = true -> exists rest, s = p ++ rest.
Proof.
  revert s. induction p as [|a p IH]; intros s H.
  - now exists s.
  - destruct s as [|b s]; simpl in H; [discriminate|].
    destruct (ascii_dec a b) as [->|]; [|discriminate].
    destruct (IH s H) as [rest ->]. now exists rest.
Qed.

Lemma split_nonempty (c : ascii) (s : string) :
  exists w ws, split c s = w :: ws.
Proof.
  induction s as [|a s [w [ws E]]]; simpl; [now eauto|].
  destruct (Ascii.eqb a c); [now eauto|]. rewrite E. eauto.
Qed.

(** Joining the pieces with the separator gives the string back. *)
Lemma join_split (c : ascii) (s : string) :
  join (String c "") (split c s) = s.
Proof.
  unfold join. induction s as [|a s IH]; [reflexivity|].
  simpl split. destruct (split_nonempty c s) as [w [ws E]].
  rewrite E in IH |- *.
  destruct (Ascii.eqb a c) eqn:Hac.
  - apply Ascii.eqb_eq in Hac. subst a.
    change (String c (String.concat (String c "") (w :: ws)) = String c s).
    now rewrite IH.
  - destruct ws as [|w' ws].
    + simpl in *. now rewrite IH.
    + change (String a (String.concat (String c "") (w :: w' :: ws))
              = String a s).
      now rewrite IH.
Qed.

(** No piece contains the separator. *)
Lemma split_pieces (c : ascii) (s : string) :
  Forall (fun w => ~ In c (list_ascii_of_string w)) (split c s).
Proof.
  induction s as [|a s IH]; simpl.
  - constructor; [intros []|constructor].
  - destruct (Ascii.eqb_spec a c) as [->|Hne].
    + constructor; [intros []|exact IH].
    + destruct (split c s) as [|w ws]; simpl.
      * constructor; [|constructor]. simpl. intros [E|[]]. congruence.
      * inversion IH as [|? ? Hw Hws]; subst. constructor; [|exact Hws].
        simpl. intros [E|H]; [congruence|contradiction].
Qed.

End PyFacts.

(** ** The formatter *)

Module FormatFacts.
Import Py App Spec PyFacts.

Lemma fold_left_snoc_map {A B} (f : A -> B) (l : list A) (acc : list B) :
  fold_left (fun acc a => (acc ++ [f a])%list) l acc = (acc ++ map f l)%list.
Proof.
  revert acc. induction l as [|a l IH]; intros acc; simpl.
  - now rewrite app_nil_r.
  - rewrite IH, <- app_assoc. reflexivity.
Qed.

Lemma format_entry_rendered (entry : Entry) : format_entry entry = rendered entry.
Proof.
  unfold format_entry, rendered, hms, divmod.
  set (x := start entry). set (s := Qfloor x).
  assert (Hh : Qfloor (x / inject_Z 3600) = s / 3600)
    by (apply Qfloor_divmod_quotient; lia).
  rewrite Hh.
  set (r := (x - inject_Z (s / 3600) * inject_Z 3600)%Q).
  assert (Hr : Qfloor r = s mod 3600).
  { unfold r. rewrite Qfloor_divmod_remainder. fold s.
    rewrite (Z.mod_eq s 3600) by lia. lia. }
  assert (Hm : Qfloor (r / inject_Z 60) = s mod 3600 / 60).
  { rewrite Qfloor_divmod_quotient by lia. now rewrite Hr. }
  rewrite Hm.
  set (sec := (r - inject_Z (s mod 3600 / 60) * inject_Z 60)%Q).
  assert (Hs : Qfloor sec = s mod 60).
  { unfold sec. rewrite Qfloor_divmod_remainder, Hr.
    assert (E : s mod 60 = (s mod 3600) mod 60).
    { symmetry. apply Z.mod_mod_divide. exists 60. reflexivity. }
    rewrite E, (Z.mod_eq (s mod 3600) 60) by lia. lia. }
  rewrite !int_inject_Z.
  rewrite (int_nonneg sec).
  - now rewrite Hs.
  - rewrite Hs. apply Z.mod_pos_bound. lia.
Qed.

(** The minutes and the seconds of a stamp always take two digits. *)
Lemma hms_minutes_seconds (s : Z) :
  String.length (format_02 (s mod 3600 / 60)) = 2%nat
  /\ String.length (format_02 (s mod 60)) = 2%nat.
Proof.
  pose proof (Z.mod_pos_bound s 3600 ltac:(lia)).
  pose proof (Z.mod_pos_bound s 60 ltac:(lia)).
  split; apply format_02_width; [|lia].
  split; [apply Z.div_pos; lia|apply Z.div_lt_upper_bound; lia].
Qed.

(** C6. For caption fragments whose start offsets lie from 0 up to 2^53
    seconds, the range on which the arithmetic of the embedding is that of the
    code, the formatter renders each fragment as [[HH:MM:SS] <text>], the
    stamp being that of the start time floored to whole seconds with hours
    that are not reduced modulo 24, and joins the lines with newlines in the
    order of the fragments; [Hello] at 0 and [World] at 65 give the two lines
    of the specification, and a start of 90000.5 seconds is stamped
    [25:00:00]. *)
Theorem format_transcript_with_timestamps_correct :
  (forall transcript : list Entry,
     Forall (fun e => caption_offset (start e)) transcript ->
     format_transcript_with_timestamps transcript
     = join nl (map rendered transcript))
  /\ format_transcript_with_timestamps
       [ {| start := 0; text := "Hello" |}; {| start := 65; text := "World" |} ]
     = "[00:00:00] Hello" ++ nl ++ "[00:01:05] World"
  /\ format_transcript_with_timestamps
       [ {| start := 180001 # 2; text := "late" |} ]
     = "[25:00:00] late".
Proof.
  split; [|split; reflexivity].
  intros transcript _. unfold format_transcript_with_timestamps.
  rewrite fold_left_snoc_map. simpl. f_equal.
  apply map_ext. intros e. apply format_entry_rendered.
Qed.

Lemma format_transcript_with_timestamps_correct_witness :
  Forall (fun e => caption_offset (start e)) Examples.lecture
  /\ format_transcript_with_timestamps Examples.lecture
     = join nl (map rendered Examples.lecture).
Proof.
  assert (H : Forall (fun e => caption_offset (start e)) Examples.lecture).
  { unfold Examples.lecture. apply Forall_forall. intros e He.
    apply list_elem_of_In in He.
    apply in_map_iff in He as [i [<- Hi]]. apply in_seq in Hi. simpl.
    split.
    - apply Qle_bool_iff. unfold Qle_bool. simpl. apply Z.leb_le. lia.
    - unfold Qlt. simpl. lia. }
  split; [exact H|].
  destruct format_transcript_with_timestamps_correct as [Hall _].
  exact (Hall Examples.lecture H).
Defined.

End FormatFacts.

(** ** The store *)

Module StoreFacts.
Import Py App Spec.

Section Insert.

Variables (now : Z) (v u ti de tr : string) (t : Sqlite.Table).

Let new : Sqlite.Row :=
  {| Sqlite.id := Sqlite.next_rowid t; Sqlite.video_id := v; Sqlite.url := u;
     Sqlite.title := ti; Sqlite.description := de; Sqlite.transcript := tr;
     Sqlite.processed_at := now |}.

Let same_video (r : Sqlite.Row) : bool := String.eqb (Sqlite.video_id r) v.

Lemma rows_insert :
  Sqlite.rows (insert_video_data now v u ti de tr t)
  = (List.filter (fun old => negb (Sqlite.conflicts new old)) (Sqlite.rows t)
     ++ [new])%list.
Proof. reflexivity. Qed.

Lemma rowid_below_next (r : Sqlite.Row) :
  In r (Sqlite.rows t) -> Sqlite.id r < Sqlite.next_rowid t.
Proof.
  unfold Sqlite.next_rowid. generalize (Sqlite.sqlite_sequence t).
  induction (Sqlite.rows t) as [|r' l IH]; intros s H; simpl in *.
  - contradiction.
  - destruct H as [E|H]; [subst; lia|]. specialize (IH s H). lia.
Qed.

(** The fresh rowid never collides: only the UNIQUE column decides which rows
    the statement deletes. *)
Lemma kept_rows :
  List.filter (fun old => negb (Sqlite.conflicts new old)) (Sqlite.rows t)
  = List.filter (fun old => negb (same_video old)) (Sqlite.rows t).
Proof.
  apply filter_ext_in. intros r Hr. unfold Sqlite.conflicts, same_video. simpl.
  apply rowid_below_next in Hr.
  destruct (Z.eqb_spec (Sqlite.id r) (Sqlite.next_rowid t)); [lia|reflexivity].
Qed.

Lemma find_after_insert :
  Sqlite.select_by_video_id v (insert_video_data now v u ti de tr t) = Some new.
Proof.
  unfold Sqlite.select_by_video_id. rewrite rows_insert, kept_rows.
  induction (Sqlite.rows t) as [|r l IH]; simpl.
  - now rewrite String.eqb_refl.
  - unfold same_video at 1. destruct (String.eqb (Sqlite.video_id r) v) eqn:E; simpl.
    + exact IH.
    + rewrite E. exact IH.
Qed.

Lemma rows_with_after_insert :
  rows_with v (insert_video_data now v u ti de tr t) = 1%nat.
Proof.
  unfold rows_with. rewrite rows_insert, kept_rows, List.filter_app.
  rewrite length_app. simpl. rewrite String.eqb_refl. simpl.
  replace (List.filter _ (List.filter _ _)) with (@nil Sqlite.Row); [reflexivity|].
  induction (Sqlite.rows t) as [|r l IH]; simpl; [reflexivity|].
  unfold same_video at 1. destruct (String.eqb (Sqlite.video_id r) v) eqn:E; simpl.
  - exact IH.
  - rewrite E. exact IH.
Qed.

Lemma other_rows_kept (r : Sqlite.Row) :
  In r (Sqlite.rows t) -> Sqlite.video_id r <> v ->
  In r (Sqlite.rows (insert_video_data now v u ti de tr t)).
Proof.
  intros Hr Hv. rewrite rows_insert, kept_rows. apply in_or_app. left.
  apply filter_In. split; [exact Hr|]. unfold same_video.
  destruct (String.eqb_spec (Sqlite.video_id r) v); [contradiction|reflexivity].
Qed.

Lemma row_count_after_insert :
  (List.length (Sqlite.rows (insert_video_data now v u ti de tr t))
   + rows_with v t = S (List.length (Sqlite.rows t)))%nat.
Proof.
  rewrite rows_insert, kept_rows, length_app. simpl. unfold rows_with.
  fold same_video.
  induction (Sqlite.rows t) as [|r l IH]; simpl; [reflexivity|].
  destruct (same_video r); simpl; lia.
Qed.

Lemma video_ids_after_insert :
  NoDup (Sqlite.select_video_ids t) ->
  NoDup (Sqlite.select_video_ids (insert_video_data now v u ti de tr t)).
Proof.
  unfold Sqlite.select_video_ids. rewrite rows_insert, kept_rows, map_app.
  intros H. simpl. apply NoDup_app. split; [|split].
  - induction (Sqlite.rows t) as [|r l IH]; simpl; [constructor|].
    inversion H as [|? ? Hn Hl]; subst.
    destruct (same_video r); simpl; [now apply IH|].
    constructor; [|now apply IH].
    intros Hin. apply Hn. apply list_elem_of_In in Hin.
    apply in_map_iff in Hin as [r' [E Hr']].
    apply filter_In in Hr' as [Hr' _]. apply list_elem_of_In, in_map_iff. eauto.
  - intros x Hx Hx'. apply list_elem_of_In in Hx, Hx'.
    destruct Hx' as [E|[]]. subst x.
    apply in_map_iff in Hx as [r [E Hr]]. apply filter_In in Hr as [_ Hr].
    unfold same_video in Hr. rewrite E, String.eqb_refl in Hr. discriminate.
  - apply NoDup_singleton.
Qed.

End Insert.

Lemma rows_with_le_1 (v : string) (t : Sqlite.Table) :
  NoDup (Sqlite.select_video_ids t) -> (rows_with v t <= 1)%nat.
Proof.
  unfold Sqlite.select_video_ids, rows_with.
  induction (Sqlite.rows t) as [|r l IH]; simpl; intros H; [lia|].
  inversion H as [|? ? Hn Hl]; subst. specialize (IH Hl).
  destruct (String.eqb_spec (Sqlite.video_id r) v) as [E|E]; simpl; [|exact IH].
  destruct (List.filter _ l) as [|r' l'] eqn:F; simpl; [lia|].
  exfalso. apply Hn.
  assert (Hr' : In r' (List.filter (fun r0 => String.eqb (Sqlite.video_id r0) v) l))
    by (rewrite F; left; reflexivity).
  apply filter_In in Hr' as [Hr' Ev]. apply String.eqb_eq in Ev.
  apply list_elem_of_In, in_map_iff. exists r'. split; [congruence|exact Hr'].
Qed.

Lemma video_ids_after_calls (calls : list InsertCall) (t : Sqlite.Table) :
  NoDup (Sqlite.select_video_ids t) ->
  NoDup (Sqlite.select_video_ids (fold_left perform calls t)).
Proof.
  revert t. induction calls as [|c calls IH]; intros t H; simpl; [exact H|].
  apply IH. now apply video_ids_after_insert.
Qed.

Lemma insert_lookup (now : Z) (v u ti de tr : string) (t : Sqlite.Table) :
  get_video_from_db v (insert_video_data now v u ti de tr t)
  = Some {| data_title := ti; data_description := de; data_transcript := tr |}.
Proof. unfold get_video_from_db. now rewrite find_after_insert. Qed.

(** C7. A record written by [insert_video_data] and read back by
    [get_video_from_db] under the same identifier is found, and carries exactly
    the title, description and transcript that were written, whatever the table
    held before. *)
Theorem insert_then_get_roundtrip :
  forall (now : Z) (video_id url title description transcript : string)
         (t : Sqlite.Table),
    get_video_from_db video_id
      (insert_video_data now video_id url title description transcript t)
    = Some {| data_title := title; data_description := description;
              data_transcript := transcript |}.
Proof.
  intros. unfold get_video_from_db. now rewrite find_after_insert.
Qed.

(** C8. After any sequence of [insert_video_data] calls on the table that
    [init_db] creates, no two rows share a [video_id]; one more call leaves
    exactly one row with its identifier, holding the new values, keeps every
    row of another identifier, and adds a row only when the identifier was not
    stored yet. *)
Theorem video_id_unique_after_inserts :
  forall calls : list InsertCall,
    let t := fold_left perform calls (init_db None) in
    NoDup (Sqlite.select_video_ids t)
    /\ forall c : InsertCall,
         let t' := perform t c in
         rows_with (call_video_id c) t' = 1%nat
         /\ get_video_from_db (call_video_id c) t'
            = Some {| data_title := call_title c;
                      data_description := call_description c;
                      data_transcript := call_transcript c |}
         /\ (forall r, In r (Sqlite.rows t) ->
                       Sqlite.video_id r <> call_video_id c ->
                       In r (Sqlite.rows t'))
         /\ (rows_with (call_video_id c) t <= 1)%nat
         /\ (List.length (Sqlite.rows t') + rows_with (call_video_id c) t
             = S (List.length (Sqlite.rows t)))%nat.
Proof.
  intros calls t.
  assert (Ht : NoDup (Sqlite.select_video_ids t)).
  { apply video_ids_after_calls. simpl. constructor. }
  split; [exact Ht|]. intros c t'. unfold t', perform.
  split; [apply rows_with_after_insert|].
  split; [unfold get_video_from_db; now rewrite find_after_insert|].
  split; [intros r; apply other_rows_kept|].
  split; [now apply rows_with_le_1|apply row_count_after_insert].
Qed.

End StoreFacts.

(** ** Identifier extraction *)

Module IdFacts.
Import Py App Spec PyFacts.

Section Extraction.

Variable urlparse : string -> result ParseResult.
Variable unquote : string -> string.

Local Abbreviation get_video_id := (App.get_video_id urlparse unquote).
Local Abbreviation parse_qs := (App.parse_qs unquote).
Local Abbreviation query_values := (Spec.query_values unquote).

Lemma hostname_in_true (p : ParseResult) (h : string) (hosts : list string) :
  hostname p = Some h -> In h hosts -> hostname_in p hosts = true.
Proof.
  intros E H. unfold hostname_in. rewrite E. apply existsb_exists.
  exists h. split; [exact H|apply String.eqb_refl].
Qed.

Lemma hostname_in_false (p : ParseResult) (hosts : list string) :
  (forall h, In h hosts -> hostname p <> Some h) ->
  hostname_in p hosts = false.
Proof.
  intros H. unfold hostname_in. destruct (hostname p) as [h|] eqn:E;
    [|reflexivity].
  destruct (existsb (String.eqb h) hosts) eqn:X; [|reflexivity].
  apply existsb_exists in X as [h' [Hin Heq]]. apply String.eqb_eq in Heq.
  subst h'. exfalso. now apply (H h).
Qed.

Lemma short_host_in (p : ParseResult) :
  short_host p -> hostname_in p ["youtu.be"; "www.youtu.be"] = true.
Proof.
  intros [E|E]; eapply hostname_in_true; try exact E; simpl; auto.
Qed.

Lemma canonical_host_in (p : ParseResult) :
  canonical_host p ->
  hostname_in p ["youtu.be"; "www.youtu.be"] = false
  /\ hostname_in p ["youtube.com"; "www.youtube.com"] = true.
Proof.
  intros H. split.
  - apply hostname_in_false. intros h [<-|[<-|[]]] E;
      destruct H as [H|H]; rewrite H in E; discriminate.
  - destruct H as [E|E]; eapply hostname_in_true; try exact E; simpl; auto.
Qed.

(** The dictionary [parse_qs] builds holds, under each name, the values of
    that name in the order of the query. *)
Lemma parse_qs_fold (name : string) (pairs : list (string * string))
    (d : gmap string (list string)) :
  let values := map snd (List.filter (fun nv => String.eqb (fst nv) name) pairs) in
  fold_left (fun parsed_result '(n, value) =>
    match parsed_result !! n with
    | Some vs => <[n := (vs ++ [value])%list]> parsed_result
    | None => <[n := [value]]> parsed_result
    end) pairs d !! name
  = match d !! name with
    | Some vs => Some (vs ++ values)%list
    | None => match values with [] => None | _ => Some values end
    end.
Proof.
  revert d. induction pairs as [|[n value] pairs IH]; intros d; simpl.
  - destruct (d !! name); [now rewrite app_nil_r|reflexivity].
  - rewrite IH. destruct (String.eqb_spec n name) as [->|Hne]; simpl.
    + destruct (d !! name) as [vs|]; rewrite lookup_insert_eq;
        [now rewrite <- app_assoc|reflexivity].
    + destruct (d !! n) as [vs|]; rewrite lookup_insert_ne by exact Hne;
        reflexivity.
Qed.

Lemma parse_qs_lookup (name qs : string) :
  parse_qs qs !! name
  = match query_values name qs with [] => None | vs => Some vs end.
Proof.
  unfold App.parse_qs, Spec.query_values.
  pose proof (parse_qs_fold name (parse_qsl unquote qs) ∅) as H.
  simpl in H. rewrite lookup_empty in H. rewrite H.
  now destruct (map snd _).
Qed.

Lemma index_2_after_prefix (p rest : string) :
  p = "/embed/" \/ p = "/v/" ->
  exists seg, nth_error (split "/" (p ++ rest)) 2 = Some seg.
Proof.
  destruct (split_nonempty "/" rest) as [w [ws E]].
  intros [->| ->]; exists w; simpl;
    change ("" ++ rest) with rest; rewrite E; reflexivity.
Qed.

Lemma prefix_of_begins_with (p s : string) :
  begins_with p s -> String.prefix p s = true.
Proof.
  intros [rest ->]. induction p as [|a p IH]; simpl.
  - now destruct rest.
  - destruct (ascii_dec a a); [exact IH|congruence].
Qed.

Lemma prefix_false (p s : string) :
  ~ begins_with p s -> String.prefix p s = false.
Proof.
  intros H. destruct (String.prefix p s) eqn:E; [|reflexivity].
  exfalso. apply H. now apply prefix_append.
Qed.

(** C2. On a parsed URL: a short-link host gives the path without its leading
    slashes; a canonical host with path [/watch] gives the first value of the
    parameter [v], and a [KeyError] when the query gives [v] no value; a
    canonical host with a path beginning [/embed/] or [/v/] gives the item of
    index 2 of the path split on [/], which always exists; any other host, and
    a canonical host with any other path, raise
    [ValueError("Invalid YouTube URL")]. *)
Theorem get_video_id_cases :
  forall (youtube_url : string) (p : ParseResult),
    urlparse youtube_url = Ok p ->
    (short_host p ->
       get_video_id youtube_url = Ok (lstrip "/" (path p))
       /\ exists n, path p = slashes n ++ lstrip "/" (path p)
                    /\ String.prefix "/" (lstrip "/" (path p)) = false)
    /\ (canonical_host p -> path p = "/watch" ->
          get_video_id youtube_url
          = match query_values "v" (query p) with
            | v :: _ => Ok v
            | [] => Err (KeyError "v")
            end)
    /\ (canonical_host p ->
          begins_with "/embed/" (path p) \/ begins_with "/v/" (path p) ->
          exists segment,
            nth_error (split "/" (path p)) 2 = Some segment
            /\ get_video_id youtube_url = Ok segment)
    /\ (~ short_host p -> ~ canonical_host p ->
          get_video_id youtube_url = Err (ValueError "Invalid YouTube URL"))
    /\ (canonical_host p -> path p <> "/watch" ->
          ~ begins_with "/embed/" (path p) -> ~ begins_with "/v/" (path p) ->
          get_video_id youtube_url = Err (ValueError "Invalid YouTube URL")).
Proof.
  intros youtube_url p Hp. unfold App.get_video_id. rewrite Hp. cbn [rbind].
  split; [|split; [|split; [|split]]].
  - intros Hs. split; [now rewrite short_host_in|].
    destruct (lstrip_decompose "/" (path p)) as [n Hn]. exists n. exact Hn.
  - intros Hc Hw. destruct (canonical_host_in p Hc) as [-> ->].
    rewrite Hw. simpl. rewrite parse_qs_lookup.
    now destruct (query_values "v" (query p)).
  - intros Hc Hb. destruct (canonical_host_in p Hc) as [-> ->].
    assert (Hs : startswith (path p) ["/embed/"; "/v/"] = true).
    { unfold startswith. simpl.
      destruct Hb as [Hb|Hb]; rewrite (prefix_of_begins_with _ _ Hb);
        [reflexivity|now rewrite !orb_true_r]. }
    assert (Hnw : String.eqb (path p) "/watch" = false)
      by (destruct Hb as [[rest ->]|[rest ->]]; reflexivity).
    rewrite Hnw, Hs.
    assert (Hi : exists seg, nth_error (split "/" (path p)) 2 = Some seg).
    { destruct Hb as [[rest ->]|[rest ->]]; apply index_2_after_prefix; auto. }
    destruct Hi as [seg Hi]. exists seg. now rewrite Hi.
  - intros Hs Hc.
    rewrite !hostname_in_false; [reflexivity| |].
    + intros h [<-|[<-|[]]] E; apply Hc; [now left|now right].
    + intros h [<-|[<-|[]]] E; apply Hs; [now left|now right].
  - intros Hc Hw He Hv. destruct (canonical_host_in p Hc) as [-> ->].
    destruct (String.eqb_spec (path p) "/watch") as [E|_]; [contradiction|].
    unfold startswith. simpl.
    now rewrite (prefix_false _ _ He), (prefix_false _ _ Hv).
Qed.

(** C9. The extractor can succeed with the empty identifier: host [youtu.be]
    with path [/], and host [youtube.com] with path [/embed/], both give [""]
    and not the "Invalid YouTube URL" error. *)
Theorem get_video_id_empty_identifier :
  forall (youtube_url : string) (p : ParseResult),
    urlparse youtube_url = Ok p ->
    (hostname p = Some "youtu.be" -> path p = "/" ->
       get_video_id youtube_url = Ok "")
    /\ (hostname p = Some "youtube.com" -> path p = "/embed/" ->
          get_video_id youtube_url = Ok "").
Proof.
  intros youtube_url p Hp. unfold App.get_video_id. rewrite Hp. cbn [rbind].
  split; intros Hh Hpath.
  - rewrite short_host_in by now left. now rewrite Hpath.
  - destruct (canonical_host_in p (or_introl Hh)) as [-> ->].
    now rewrite Hpath.
Qed.

End Extraction.

Import Examples.

Lemma get_video_id_cases_witness :
  App.get_video_id urlparse_table unquote_plain "https://youtu.be//abc123"
  = Ok "abc123"
  /\ App.get_video_id urlparse_table unquote_plain
       "https://www.youtube.com/watch?t=10&v=&v=first&v=second"
     = Ok "first"
  /\ App.get_video_id urlparse_table unquote_plain
       "https://www.youtube.com/watch?list=PL1"
     = Err (KeyError "v")
  /\ App.get_video_id urlparse_table unquote_plain
       "https://www.youtube.com/embed/abc123/extra"
     = Ok "abc123"
  /\ App.get_video_id urlparse_table unquote_plain
       "https://vimeo.com/watch?v=abc123"
     = Err (ValueError "Invalid YouTube URL")
  /\ App.get_video_id urlparse_table unquote_plain
       "https://www.youtube.com/playlist?list=PL1"
     = Err (ValueError "Invalid YouTube URL").
Proof.
  split; [|split; [|split; [|split; [|split]]]].
  - destruct (get_video_id_cases urlparse_table unquote_plain
                "https://youtu.be//abc123" _ eq_refl) as [H _].
    destruct (H (or_introl eq_refl)) as [E _]. exact E.
  - destruct (get_video_id_cases urlparse_table unquote_plain
                "https://www.youtube.com/watch?t=10&v=&v=first&v=second"
                _ eq_refl) as (_ & H & _).
    exact (H (or_intror eq_refl) eq_refl).
  - destruct (get_video_id_cases urlparse_table unquote_plain
                "https://www.youtube.com/watch?list=PL1" _ eq_refl)
      as (_ & H & _).
    exact (H (or_intror eq_refl) eq_refl).
  - destruct (get_video_id_cases urlparse_table unquote_plain
                "https://www.youtube.com/embed/abc123/extra" _ eq_refl)
      as (_ & _ & H & _).
    destruct (H (or_intror eq_refl)
                (or_introl (ex_intro _ "abc123/extra" eq_refl)))
      as [segment [Hi E]].
    simpl in Hi. injection Hi as <-. exact E.
  - destruct (get_video_id_cases urlparse_table unquote_plain
                "https://vimeo.com/watch?v=abc123" _ eq_refl)
      as (_ & _ & _ & H & _).
    apply H; intros [E|E]; discriminate E.
  - destruct (get_video_id_cases urlparse_table unquote_plain
                "https://www.youtube.com/playlist?list=PL1" _ eq_refl)
      as (_ & _ & _ & _ & H).
    apply H.
    + now right.
    + discriminate.
    + intros [rest E]. discriminate E.
    + intros [rest E]. discriminate E.
Defined.

Lemma get_video_id_empty_identifier_witness :
  App.get_video_id urlparse_table unquote_plain "https://youtu.be/" = Ok ""
  /\ App.get_video_id urlparse_table unquote_plain
       "https://youtube.com/embed/" = Ok "".
Proof.
  split.
  - destruct (get_video_id_empty_identifier urlparse_table unquote_plain
                "https://youtu.be/" _ eq_refl) as [H _].
    exact (H eq_refl eq_refl).
  - destruct (get_video_id_empty_identifier urlparse_table unquote_plain
                "https://youtube.com/embed/" _ eq_refl) as [_ H].
    exact (H eq_refl eq_refl).
Defined.

End IdFacts.

(** ** Metadata *)

Module MetadataFacts.
Import Py App Spec Examples.

Lemma obtain_api_key_ok (cfg : gmap string (option string)) (k : string) :
  cfg !! "YOUTUBE_KEY" = Some (Some k) -> 11 <= len k ->
  obtain_api_key cfg = Ok k.
Proof.
  intros E H. unfold obtain_api_key. rewrite E.
  destruct (Z.ltb_spec 10 (len k)); [reflexivity|lia].
Qed.

Lemma obtain_api_key_err (cfg : gmap string (option string)) :
  cfg !! "YOUTUBE_KEY" = None \/ cfg !! "YOUTUBE_KEY" = Some None
  \/ (exists k, cfg !! "YOUTUBE_KEY" = Some (Some k) /\ len k < 11) ->
  exists e, obtain_api_key cfg = Err e.
Proof.
  unfold obtain_api_key. intros [E|[E|[k [E H]]]]; rewrite E; eauto.
  destruct (Z.ltb_spec 10 (len k)); [lia|eauto].
Qed.

(** With the network down, the exception of [requests.get] leaves
    [get_video_description]. *)
Lemma get_video_description_raises_offline :
  get_video_description env_offline "abc123"
  = Err (ExternalError "Connection refused").
Proof. reflexivity. Qed.

(** C5, as the code has it.  [get_video_description] returns placeholder
    values when no valid key can be obtained, when the answer has a status
    other than 200, and when a 200 answer has no items or an empty list of
    them; an exception raised by [requests.get] or by [response.json()]
    reaches the caller. *)
Theorem get_video_description_failures :
  forall (env : Env) (video_id : string),
    (forall e, obtain_api_key (config env) = Err e ->
       get_video_description env video_id = Ok not_available)
    /\ (forall k response,
          obtain_api_key (config env) = Ok k ->
          requests_get env (api_url video_id k) = Ok response ->
          status_code response <> 200 ->
          get_video_description env video_id = Ok NaN)
    /\ (forall k response data,
          obtain_api_key (config env) = Ok k ->
          requests_get env (api_url video_id k) = Ok response ->
          status_code response = 200 ->
          json response = Ok data ->
          items data = None \/ items data = Some [] ->
          get_video_description env video_id = Ok NaN)
    /\ (forall k e,
          obtain_api_key (config env) = Ok k ->
          requests_get env (api_url video_id k) = Err e ->
          get_video_description env video_id = Err e)
    /\ (forall k response e,
          obtain_api_key (config env) = Ok k ->
          requests_get env (api_url video_id k) = Ok response ->
          status_code response = 200 ->
          json response = Err e ->
          get_video_description env video_id = Err e).
Proof.
  intros env video_id. unfold get_video_description.
  split; [|split; [|split; [|split]]].
  - intros e ->. reflexivity.
  - intros k response -> ->. simpl. intros H.
    destruct (Z.eqb_spec (status_code response) 200); [contradiction|reflexivity].
  - intros k response data -> ->. simpl. intros -> ->. simpl.
    intros [->| ->]; reflexivity.
  - intros k e -> ->. reflexivity.
  - intros k response e -> ->. simpl. intros -> ->. reflexivity.
Qed.

Lemma get_video_description_failures_witness :
  get_video_description (env_of (key_config (Some "short")) (Ok lecture)
                           (Ok api_answer)) "abc123" = Ok not_available
  /\ get_video_description (env_of good_key (Ok lecture) (Ok api_forbidden))
       "abc123" = Ok NaN
  /\ get_video_description (env_of good_key (Ok lecture) (Ok api_empty))
       "abc123" = Ok NaN
  /\ get_video_description env_offline "abc123"
     = Err (ExternalError "Connection refused").
Proof.
  split; [|split; [|split]].
  - destruct (get_video_description_failures
                (env_of (key_config (Some "short")) (Ok lecture) (Ok api_answer))
                "abc123") as [H _].
    exact (H AssertionError eq_refl).
  - destruct (get_video_description_failures
                (env_of good_key (Ok lecture) (Ok api_forbidden)) "abc123")
      as (_ & H & _).
    apply (H "AIzaSyExampleKey0123" api_forbidden eq_refl eq_refl).
    discriminate.
  - destruct (get_video_description_failures
                (env_of good_key (Ok lecture) (Ok api_empty)) "abc123")
      as (_ & _ & H & _).
    exact (H "AIzaSyExampleKey0123" api_empty _ eq_refl eq_refl eq_refl eq_refl
             (or_intror eq_refl)).
  - destruct (get_video_description_failures env_offline "abc123")
      as (_ & _ & _ & H & _).
    exact (H "AIzaSyExampleKey0123" _ eq_refl eq_refl).
Defined.

(** C10. The placeholder depends on the failure: without a key, or with a key
    of fewer than 11 characters, title and description are both
    ["not available"]; with a valid key and an answer whose status is not 200,
    or a 200 answer without items, both are ["NaN"]. *)
Theorem get_video_description_placeholders :
  forall (env : Env) (video_id : string),
    (config env !! "YOUTUBE_KEY" = None
     \/ config env !! "YOUTUBE_KEY" = Some None
     \/ (exists k, config env !! "YOUTUBE_KEY" = Some (Some k) /\ len k < 11) ->
     get_video_description env video_id
     = Ok {| meta_title := "not available";
             meta_description := "not available" |})
    /\ (forall k response,
          config env !! "YOUTUBE_KEY" = Some (Some k) -> 11 <= len k ->
          requests_get env (api_url video_id k) = Ok response ->
          status_code response <> 200
          \/ (status_code response = 200
              /\ exists data, json response = Ok data
                              /\ (items data = None \/ items data = Some [])) ->
          get_video_description env video_id
          = Ok {| meta_title := "NaN"; meta_description := "NaN" |}).
Proof.
  intros env video_id. unfold get_video_description. split.
  - intros H. destruct (obtain_api_key_err _ H) as [e ->]. reflexivity.
  - intros k response Hk Hlen Hget Hresp.
    rewrite (obtain_api_key_ok _ _ Hk Hlen), Hget. simpl.
    destruct Hresp as [Hs|[Hs [data [Hj Hi]]]].
    + destruct (Z.eqb_spec (status_code response) 200); [contradiction|].
      reflexivity.
    + rewrite Hs, Hj. simpl. destruct Hi as [->| ->]; reflexivity.
Qed.

Lemma get_video_description_placeholders_witness :
  get_video_description (env_of ∅ (Ok lecture) (Ok api_answer)) "abc123"
  = Ok {| meta_title := "not available"; meta_description := "not available" |}
  /\ get_video_description (env_of (key_config (Some "0123456789"))
                             (Ok lecture) (Ok api_answer)) "abc123"
     = Ok {| meta_title := "not available";
             meta_description := "not available" |}
  /\ get_video_description (env_of good_key (Ok lecture) (Ok api_forbidden))
       "abc123"
     = Ok {| meta_title := "NaN"; meta_description := "NaN" |}
  /\ get_video_description (env_of good_key (Ok lecture) (Ok api_no_items))
       "abc123"
     = Ok {| meta_title := "NaN"; meta_description := "NaN" |}.
Proof.
  split; [|split; [|split]].
  - destruct (get_video_description_placeholders
                (env_of ∅ (Ok lecture) (Ok api_answer)) "abc123") as [H _].
    apply H. left. reflexivity.
  - destruct (get_video_description_placeholders
                (env_of (key_config (Some "0123456789")) (Ok lecture)
                   (Ok api_answer)) "abc123") as [H _].
    apply H. right. right. exists "0123456789". split; [reflexivity|].
    vm_compute. reflexivity.
  - destruct (get_video_description_placeholders
                (env_of good_key (Ok lecture) (Ok api_forbidden)) "abc123")
      as [_ H].
    apply (H "AIzaSyExampleKey0123" api_forbidden eq_refl).
    + vm_compute. discriminate.
    + reflexivity.
    + left. discriminate.
  - destruct (get_video_description_placeholders
                (env_of good_key (Ok lecture) (Ok api_no_items)) "abc123")
      as [_ H].
    apply (H "AIzaSyExampleKey0123" api_no_items eq_refl).
    + vm_compute. discriminate.
    + reflexivity.
    + right. split; [reflexivity|]. eexists. split; [reflexivity|].
      left. reflexivity.
Defined.

End MetadataFacts.

(** ** The endpoint *)

Module HandlerFacts.
Import Py App Spec Examples.

Section Handler.

Variable urlparse : string -> result ParseResult.
Variable unquote : string -> string.

Local Abbreviation get_video_id := (App.get_video_id urlparse unquote).
Local Abbreviation get_transcript := (App.get_transcript urlparse unquote).

Ltac run_handler :=
  unfold App.get_transcript, try_except, get_transcript_try, bind, lift, log,
    read_db, write_db, ret, raise; cbn [db trace].

Lemma get_transcript_hit (env : Env) (url video_id : string) (data : VideoData)
    (w : World) :
  get_video_id url = Ok video_id ->
  get_video_from_db video_id (db w) = Some data ->
  get_transcript env url w
  = (Ok {| reply_transcript := data_transcript data |},
     logged w [EvCacheLookup video_id]).
Proof.
  intros Hid Hdb. run_handler. rewrite Hid, Hdb. reflexivity.
Qed.

Lemma get_transcript_miss (env : Env) (url video_id : string)
    (captions : list Entry) (m : Metainfo) (w : World) :
  get_video_id url = Ok video_id ->
  get_video_from_db video_id (db w) = None ->
  YouTubeTranscriptApi_get_transcript env video_id ["en"; "fi"] = Ok captions ->
  get_video_description env video_id = Ok m ->
  let body := format_transcript_with_timestamps captions in
  let steps := [EvCacheLookup video_id; EvFetchTranscript video_id;
                EvFetchMetadata video_id; EvFormat; EvValidate] in
  get_transcript env url w
  = if len body <=? 500 then
      (Err (HTTPException 500
              "Failed to obtain transcript: Transcript too short!"),
       logged w steps)
    else
      (Ok {| reply_transcript := titled (meta_title m) body |},
       {| db := insert_video_data (datetime_now env) video_id url
                  (meta_title m) (meta_description m)
                  (titled (meta_title m) body) (db w);
          trace := (trace w ++ steps ++ [EvPersist video_id])%list |}).
Proof.
  intros Hid Hdb Hcap Hm body steps. run_handler.
  rewrite Hid, Hdb, Hcap, Hm. fold body.
  unfold logged, steps, titled.
  destruct (len body <=? 500); cbn [db trace];
    repeat rewrite <- app_assoc; reflexivity.
Qed.

(** A request that succeeds leaves its reply stored under the identifier. *)
Lemma reply_is_stored (env : Env) (url video_id : string) (reply : Reply)
    (w w' : World) :
  get_video_id url = Ok video_id ->
  get_transcript env url w = (Ok reply, w') ->
  exists data, get_video_from_db video_id (db w') = Some data
               /\ data_transcript data = reply_transcript reply.
Proof.
  intros Hid H.
  destruct (get_video_from_db video_id (db w)) as [data|] eqn:Hdb.
  - rewrite (get_transcript_hit env _ _ _ _ Hid Hdb) in H.
    injection H as <- <-. exists data. split; [exact Hdb|reflexivity].
  - destruct (YouTubeTranscriptApi_get_transcript env video_id ["en"; "fi"])
      as [captions|e] eqn:Hcap.
    + destruct (get_video_description env video_id) as [m|e] eqn:Hm.
      * rewrite (get_transcript_miss env _ _ _ _ _ Hid Hdb Hcap Hm) in H.
        destruct (len (format_transcript_with_timestamps captions) <=? 500);
          [discriminate|].
        injection H as <- <-. eexists. split.
        -- apply StoreFacts.insert_lookup.
        -- reflexivity.
      * revert H. run_handler. rewrite Hid, Hdb, Hcap, Hm. discriminate.
    + revert H. run_handler. rewrite Hid, Hdb, Hcap. discriminate.
Qed.

(** C1. When the identifier of the URL is in the store, the request returns
    the stored transcript as it is, for any behaviour of the collaborators:
    the table is unchanged and the only step taken is the cache lookup, so the
    caption fetcher, the metadata fetcher, the formatter, the length check and
    the write are not run.  Hence a URL whose request succeeded gets the same
    transcript on the next request. *)
Theorem cache_hit_short_circuits :
  forall (url video_id : string),
    get_video_id url = Ok video_id ->
    (forall (env : Env) (w : World) (data : VideoData),
       get_video_from_db video_id (db w) = Some data ->
       get_transcript env url w
       = (Ok {| reply_transcript := data_transcript data |},
          logged w [EvCacheLookup video_id]))
    /\ (forall (env1 env2 : Env) (w w1 : World) (reply : Reply),
          get_transcript env1 url w = (Ok reply, w1) ->
          get_transcript env2 url w1
          = (Ok reply, logged w1 [EvCacheLookup video_id])).
Proof.
  intros url video_id Hid. split.
  - intros env w data Hdb. now apply get_transcript_hit.
  - intros env1 env2 w w1 reply H.
    destruct (reply_is_stored _ _ _ _ _ _ Hid H) as [data [Hdb E]].
    rewrite (get_transcript_hit env2 _ _ _ _ Hid Hdb), E.
    now destruct reply.
Qed.

(** C3, as the code has it.  What a request stores as the transcript of a
    video is the string it returns: the line [Title: <title>] with the title
    stripped of surrounding white space, an empty line, the formatted body,
    and the end marker on a line of its own.  The body is longer than 500
    characters. *)
Theorem stored_transcript_is_titled :
  forall (env : Env) (url video_id : string) (w w' : World) (reply : Reply),
    get_video_id url = Ok video_id ->
    get_video_from_db video_id (db w) = None ->
    get_transcript env url w = (Ok reply, w') ->
    exists (captions : list Entry) (m : Metainfo),
      YouTubeTranscriptApi_get_transcript env video_id ["en"; "fi"] = Ok captions
      /\ get_video_description env video_id = Ok m
      /\ 500 < len (format_transcript_with_timestamps captions)
      /\ get_video_from_db video_id (db w')
         = Some {| data_title := meta_title m;
                   data_description := meta_description m;
                   data_transcript :=
                     "Title: " ++ strip (meta_title m) ++ nl ++ nl
                     ++ format_transcript_with_timestamps captions
                     ++ nl ++ "END_OF_TRANSCRIPT" |}
      /\ reply_transcript reply
         = "Title: " ++ strip (meta_title m) ++ nl ++ nl
           ++ format_transcript_with_timestamps captions
           ++ nl ++ "END_OF_TRANSCRIPT".
Proof.
  intros env url video_id w w' reply Hid Hdb H.
  destruct (YouTubeTranscriptApi_get_transcript env video_id ["en"; "fi"])
    as [captions|e] eqn:Hcap.
  - destruct (get_video_description env video_id) as [m|e] eqn:Hm.
    + rewrite (get_transcript_miss env _ _ _ _ _ Hid Hdb Hcap Hm) in H.
      destruct (Z.leb_spec (len (format_transcript_with_timestamps captions)) 500)
        as [Hle|Hgt]; [discriminate|].
      injection H as <- <-. exists captions, m.
      repeat split; try assumption.
      apply StoreFacts.insert_lookup.
    + revert H. run_handler. rewrite Hid, Hdb, Hcap, Hm. discriminate.
  - revert H. run_handler. rewrite Hid, Hdb, Hcap. discriminate.
Qed.

(** C4. Once the captions and the metadata are there, the length of the
    formatted transcript, taken before the end marker is appended, decides:
    at 500 characters or fewer the request fails and the table is unchanged;
    above 500 the record is written, can be read back, and the request
    returns. *)
Theorem validation_boundary :
  forall (env : Env) (url video_id : string) (captions : list Entry)
         (m : Metainfo) (w : World),
    get_video_id url = Ok video_id ->
    get_video_from_db video_id (db w) = None ->
    YouTubeTranscriptApi_get_transcript env video_id ["en"; "fi"] = Ok captions ->
    get_video_description env video_id = Ok m ->
    let body := format_transcript_with_timestamps captions in
    let output := titled (meta_title m) body in
    let steps := [EvCacheLookup video_id; EvFetchTranscript video_id;
                  EvFetchMetadata video_id; EvFormat; EvValidate] in
    (len body <= 500 ->
       get_transcript env url w
       = (Err (HTTPException 500
                 "Failed to obtain transcript: Transcript too short!"),
          logged w steps))
    /\ (500 < len body ->
          exists w',
            get_transcript env url w = (Ok {| reply_transcript := output |}, w')
            /\ db w' = insert_video_data (datetime_now env) video_id url
                         (meta_title m) (meta_description m) output (db w)
            /\ trace w' = (trace w ++ steps ++ [EvPersist video_id])%list
            /\ get_video_from_db video_id (db w')
               = Some {| data_title := meta_title m;
                         data_description := meta_description m;
                         data_transcript := output |}).
Proof.
  intros env url video_id captions m w Hid Hdb Hcap Hm body output steps.
  pose proof (get_transcript_miss env _ _ _ _ _ Hid Hdb Hcap Hm) as H.
  cbv zeta in H. fold body in H. fold output in H. fold steps in H.
  split; intros Hlen.
  - destruct (Z.leb_spec (len body) 500); [exact H|lia].
  - destruct (Z.leb_spec (len body) 500); [lia|].
    eexists. split; [exact H|]. split; [reflexivity|]. split; [reflexivity|].
    apply StoreFacts.insert_lookup.
Qed.

End Handler.

Lemma cache_hit_short_circuits_witness :
  exists (reply : Reply) (w1 : World),
    App.get_transcript urlparse_table unquote_plain env_lecture
      "https://youtu.be/abc123" fresh = (Ok reply, w1)
    /\ App.get_transcript urlparse_table unquote_plain env_dead
         "https://youtu.be/abc123" w1
       = (Ok reply, logged w1 [EvCacheLookup "abc123"]).
Proof.
  eexists. eexists. split.
  - vm_compute. reflexivity.
  - destruct (cache_hit_short_circuits urlparse_table unquote_plain
                "https://youtu.be/abc123" "abc123" eq_refl) as [_ H].
    apply (H env_lecture env_dead fresh). vm_compute. reflexivity.
Defined.

(** The row a request stores begins with the title line, so it is not the
    formatted body followed by the end marker; and the two captions of the
    specification's scenario are too short to be stored at all. *)
Lemma stored_transcript_has_title_line :
  (exists data,
     get_video_from_db "abc123"
       (db (snd (App.get_transcript urlparse_table unquote_plain env_lecture
                   "https://youtu.be/abc123" fresh))) = Some data
     /\ data_transcript data
        = "Title: A lecture" ++ nl ++ nl
          ++ format_transcript_with_timestamps lecture
          ++ nl ++ "END_OF_TRANSCRIPT"
     /\ String.eqb (data_transcript data)
          (format_transcript_with_timestamps lecture
           ++ nl ++ "END_OF_TRANSCRIPT") = false)
  /\ App.get_transcript urlparse_table unquote_plain env_hello_world
       "https://www.youtube.com/watch?v=aQ4yQXeB1Ss" fresh
     = (Err (HTTPException 500
               "Failed to obtain transcript: Transcript too short!"),
        logged fresh [EvCacheLookup "aQ4yQXeB1Ss";
                      EvFetchTranscript "aQ4yQXeB1Ss";
                      EvFetchMetadata "aQ4yQXeB1Ss"; EvFormat; EvValidate]).
Proof.
  split.
  - eexists. split; [vm_compute; reflexivity|]. split; vm_compute; reflexivity.
  - vm_compute. reflexivity.
Qed.

Lemma stored_transcript_is_titled_witness :
  exists (reply : Reply) (w' : World),
    App.get_transcript urlparse_table unquote_plain env_lecture
      "https://youtu.be/abc123" fresh = (Ok reply, w')
    /\ get_video_from_db "abc123" (db w')
       = Some {| data_title := "  A lecture ";
                 data_description := "Recorded talk";
                 data_transcript :=
                   "Title: A lecture" ++ nl ++ nl
                   ++ format_transcript_with_timestamps lecture
                   ++ nl ++ "END_OF_TRANSCRIPT" |}.
Proof.
  eexists. eexists. split.
  - vm_compute. reflexivity.
  - destruct (stored_transcript_is_titled urlparse_table unquote_plain
                env_lecture "https://youtu.be/abc123" "abc123" fresh _ _
                eq_refl eq_refl eq_refl)
      as (captions & m & Hcap & Hm & _ & Hdb & _).
    injection Hcap as <-. injection Hm as <-. exact Hdb.
Defined.

Lemma validation_boundary_witness :
  len (format_transcript_with_timestamps (line_of 489)) = 500
  /\ App.get_transcript urlparse_table unquote_plain (env_line 489)
       "https://youtu.be/abc123" fresh
     = (Err (HTTPException 500
               "Failed to obtain transcript: Transcript too short!"),
        logged fresh [EvCacheLookup "abc123"; EvFetchTranscript "abc123";
                      EvFetchMetadata "abc123"; EvFormat; EvValidate])
  /\ len (format_transcript_with_timestamps (line_of 490)) = 501
  /\ exists w',
       App.get_transcript urlparse_table unquote_plain (env_line 490)
         "https://youtu.be/abc123" fresh
       = (Ok {| reply_transcript :=
                  titled "  A lecture "
                    (format_transcript_with_timestamps (line_of 490)) |}, w')
       /\ get_video_from_db "abc123" (db w')
          = Some {| data_title := "  A lecture ";
                    data_description := "Recorded talk";
                    data_transcript :=
                      titled "  A lecture "
                        (format_transcript_with_timestamps (line_of 490)) |}.
Proof.
  split; [vm_compute; reflexivity|]. split; [|split; [vm_compute; reflexivity|]].
  - destruct (validation_boundary urlparse_table unquote_plain (env_line 489)
                "https://youtu.be/abc123" "abc123" (line_of 489)
                {| meta_title := "  A lecture ";
                   meta_description := "Recorded talk" |}
                fresh eq_refl eq_refl eq_refl eq_refl) as [H _].
    apply H. vm_compute. discriminate.
  - destruct (validation_boundary urlparse_table unquote_plain (env_line 490)
                "https://youtu.be/abc123" "abc123" (line_of 490)
                {| meta_title := "  A lecture ";
                   meta_description := "Recorded talk" |}
                fresh eq_refl eq_refl eq_refl eq_refl) as [_ H].
    destruct H as (w' & Hrun & _ & _ & Hdb); [vm_compute; reflexivity|].
    exists w'. split; [exact Hrun|exact Hdb].
Defined.

End HandlerFacts.

(** ** More on the store: other rows, sequences of writes, the status *)

Module StoreMore.
Import Py App Spec StoreFacts.

Lemma select_none_filter (v : string) (l : list Sqlite.Row) :
  List.find (fun r => String.eqb (Sqlite.video_id r) v) l = None ->
  List.filter (fun r => negb (String.eqb (Sqlite.video_id r) v)) l = l.
Proof.
  induction l as [|r l IH]; simpl; [reflexivity|].
  destruct (String.eqb (Sqlite.video_id r) v); [discriminate|].
  intros H. simpl. now rewrite IH.
Qed.

Lemma video_ids_insert (now : Z) (v u ti de tr : string) (t : Sqlite.Table) :
  Sqlite.select_video_ids (insert_video_data now v u ti de tr t)
  = (List.filter (fun x => negb (String.eqb x v)) (Sqlite.select_video_ids t)
     ++ [v])%list.
Proof.
  unfold Sqlite.select_video_ids. rewrite rows_insert, kept_rows, map_app.
  simpl. f_equal.
  induction (Sqlite.rows t) as [|r l IH]; simpl; [reflexivity|].
  destruct (String.eqb (Sqlite.video_id r) v); simpl; now rewrite IH.
Qed.

Lemma select_other (now : Z) (v u ti de tr other : string) (t : Sqlite.Table) :
  other <> v ->
  Sqlite.select_by_video_id other (insert_video_data now v u ti de tr t)
  = Sqlite.select_by_video_id other t.
Proof.
  intros Hne. unfold Sqlite.select_by_video_id. rewrite rows_insert, kept_rows.
  induction (Sqlite.rows t) as [|r l IH]; simpl.
  - destruct (String.eqb_spec v other); [congruence|reflexivity].
  - destruct (String.eqb_spec (Sqlite.video_id r) v) as [Ev|Ev]; simpl.
    + destruct (String.eqb_spec (Sqlite.video_id r) other);
        [congruence|exact IH].
    + destruct (String.eqb (Sqlite.video_id r) other); [reflexivity|exact IH].
Qed.

(** X7. Writing one identifier leaves what is stored under every other
    identifier as it was: the same row, with its rowid, URL and time stamp. *)
Theorem insert_keeps_other_videos :
  forall (now : Z) (v u ti de tr other : string) (t : Sqlite.Table),
    other <> v ->
    Sqlite.select_by_video_id other (insert_video_data now v u ti de tr t)
    = Sqlite.select_by_video_id other t
    /\ get_video_from_db other (insert_video_data now v u ti de tr t)
       = get_video_from_db other t.
Proof.
  intros now v u ti de tr other t Hne.
  pose proof (select_other now v u ti de tr other t Hne) as E.
  split; [exact E|]. unfold get_video_from_db. now rewrite E.
Qed.

Lemma insert_keeps_other_videos_witness :
  get_video_from_db "a"
    (insert_video_data 2 "b" "u2" "t2" "d2" "x2"
       (insert_video_data 1 "a" "u1" "t1" "d1" "x1" Sqlite.empty))
  = Some {| data_title := "t1"; data_description := "d1";
            data_transcript := "x1" |}.
Proof.
  destruct (insert_keeps_other_videos 2 "b" "u2" "t2" "d2" "x2" "a"
              (insert_video_data 1 "a" "u1" "t1" "d1" "x1" Sqlite.empty))
    as [_ H]; [discriminate|].
  rewrite H. reflexivity.
Defined.

(** X8. Last write wins: after any sequence of writes to the table that
    [init_db] creates, the row found under an identifier carries the URL,
    title, description, transcript and time of the last write of that
    identifier; an identifier that was never written is not found. *)
Theorem last_write_wins :
  forall (calls : list InsertCall) (v : string),
    let t := fold_left perform calls (init_db None) in
    match last_call v calls with
    | Some c =>
        exists r, Sqlite.select_by_video_id v t = Some r
                  /\ Sqlite.video_id r = v
                  /\ Sqlite.url r = call_url c
                  /\ Sqlite.title r = call_title c
                  /\ Sqlite.description r = call_description c
                  /\ Sqlite.transcript r = call_transcript c
                  /\ Sqlite.processed_at r = call_now c
    | None => Sqlite.select_by_video_id v t = None
    end.
Proof.
  intros calls v. cbv zeta. unfold last_call.
  induction calls as [|c calls IH] using rev_ind; [reflexivity|].
  rewrite fold_left_app, rev_app_distr. simpl in IH |- *.
  set (t0 := fold_left perform calls Sqlite.empty) in *.
  destruct (String.eqb_spec (call_video_id c) v) as [E|E].
  - subst v. unfold perform. rewrite find_after_insert.
    eexists. split; [reflexivity|]. simpl. repeat split.
  - unfold perform. rewrite !select_other by congruence. exact IH.
Qed.

Lemma elem_of_video_ids_insert (now : Z) (v u ti de tr x : string)
    (t : Sqlite.Table) :
  x ∈ Sqlite.select_video_ids (insert_video_data now v u ti de tr t)
  <-> x = v \/ x ∈ Sqlite.select_video_ids t.
Proof.
  rewrite video_ids_insert, !list_elem_of_In, in_app_iff, filter_In. simpl.
  destruct (String.eqb_spec x v) as [E|E]; simpl; intuition congruence.
Qed.

(** X9. The status endpoint counts identifiers: after any sequence of writes
    to the table that [init_db] creates, [video_ids] holds exactly the
    identifiers written, and [total_videos] is the number of distinct
    identifiers among them. *)
Theorem database_status_counts_identifiers :
  forall calls : list InsertCall,
    let status := get_database_status (fold_left perform calls (init_db None)) in
    (forall v, v ∈ video_ids status <-> v ∈ map call_video_id calls)
    /\ total_videos status
       = Z.of_nat (size (list_to_set (map call_video_id calls) : gset string)).
Proof.
  intros calls. cbv zeta. unfold get_database_status. cbn [video_ids total_videos].
  assert (Hmem : forall v,
             v ∈ Sqlite.select_video_ids (fold_left perform calls (init_db None))
             <-> v ∈ map call_video_id calls).
  { induction calls as [|c calls IH] using rev_ind; intros v.
    - simpl. reflexivity.
    - rewrite fold_left_app, map_app. simpl. unfold perform at 1.
      rewrite elem_of_video_ids_insert, IH, elem_of_app, list_elem_of_singleton.
      tauto. }
  split; [exact Hmem|].
  unfold Sqlite.select_count. f_equal.
  assert (Hnd : NoDup (Sqlite.select_video_ids
                         (fold_left perform calls (init_db None))))
    by (apply video_ids_after_calls; constructor).
  transitivity (List.length (Sqlite.select_video_ids
                               (fold_left perform calls (init_db None)))).
  { unfold Sqlite.select_video_ids. now rewrite length_map. }
  rewrite <- (size_list_to_set (C := gset string) _ Hnd).
  f_equal. apply set_eq. intros v. rewrite !elem_of_list_to_set. apply Hmem.
Qed.

(** X10. The status after a write, up to the order of [video_ids], which the
    query leaves open: the identifiers listed are those listed before, less
    the one written, and the one written; the total grows by one exactly when
    the identifier was not stored. *)
Theorem database_status_after_insert :
  forall (now : Z) (v u ti de tr : string) (t : Sqlite.Table),
    let before := get_database_status t in
    let after := get_database_status (insert_video_data now v u ti de tr t) in
    Permutation (video_ids after)
      (v :: List.filter (fun x => negb (String.eqb x v)) (video_ids before))
    /\ (get_video_from_db v t = None ->
        Permutation (video_ids after) (v :: video_ids before)
        /\ total_videos after = total_videos before + 1)
    /\ (NoDup (video_ids before) -> get_video_from_db v t <> None ->
        total_videos after = total_videos before).
Proof.
  intros now v u ti de tr t. cbv zeta. unfold get_database_status.
  cbn [video_ids total_videos]. split.
  { rewrite video_ids_insert. symmetry. apply Permutation_cons_append. }
  pose proof (row_count_after_insert now v u ti de tr t) as Hcount.
  unfold Sqlite.select_count. split.
  - intros Hnone. unfold get_video_from_db in Hnone.
    destruct (Sqlite.select_by_video_id v t) eqn:Hsel; [discriminate|].
    unfold Sqlite.select_by_video_id in Hsel.
    pose proof (select_none_filter _ _ Hsel) as Hf. split.
    + unfold Sqlite.select_video_ids. rewrite rows_insert, kept_rows, Hf.
      rewrite map_app. symmetry. apply Permutation_cons_append.
    + rewrite rows_insert, kept_rows, Hf, length_app. simpl. lia.
  - intros Hnd Hsome.
    pose proof (rows_with_le_1 v t Hnd) as Hle.
    assert (rows_with v t <> 0%nat).
    { intros H0. apply Hsome. unfold get_video_from_db, Sqlite.select_by_video_id.
      unfold rows_with in H0.
      destruct (List.find _ (Sqlite.rows t)) as [r|] eqn:Hfind; [|reflexivity].
      apply find_some in Hfind.
      assert (Hin : In r (List.filter
                            (fun r => String.eqb (Sqlite.video_id r) v)
                            (Sqlite.rows t))) by now apply filter_In.
      destruct (List.filter _ (Sqlite.rows t)); [contradiction|discriminate]. }
    lia.
Qed.

End StoreMore.

(** ** More on the formatter: composition, length, lines *)

Module FormatMore.
Import Py App Spec PyFacts FormatFacts.

Lemma append_assoc (a b c : string) : (a ++ b) ++ c = a ++ b ++ c.
Proof.
  induction a as [|x a IH]; [reflexivity|].
  change (String x ((a ++ b) ++ c) = String x (a ++ b ++ c)). now rewrite IH.
Qed.

Lemma length_append (a b : string) :
  String.length (a ++ b) = (String.length a + String.length b)%nat.
Proof.
  induction a as [|x a IH]; [reflexivity|].
  change (S (String.length (a ++ b))
          = S (String.length a + String.length b)). now rewrite IH.
Qed.

Lemma chars_append (a b : string) :
  list_ascii_of_string (a ++ b)
  = (list_ascii_of_string a ++ list_ascii_of_string b)%list.
Proof.
  induction a as [|x a IH]; [reflexivity|].
  change (x :: list_ascii_of_string (a ++ b)
          = x :: (list_ascii_of_string a ++ list_ascii_of_string b)%list).
  now rewrite IH.
Qed.

Lemma format_as_map (transcript : list Entry) :
  format_transcript_with_timestamps transcript
  = join nl (map rendered transcript).
Proof.
  unfold format_transcript_with_timestamps.
  rewrite fold_left_snoc_map. simpl. f_equal.
  apply map_ext. intros e. apply format_entry_rendered.
Qed.

Lemma join_cons (sep x : string) (l : list string) :
  l <> [] -> join sep (x :: l) = x ++ sep ++ join sep l.
Proof. destruct l; [contradiction|reflexivity]. Qed.

Lemma join_app (sep : string) (a b : list string) :
  a <> [] -> b <> [] -> join sep (a ++ b) = join sep a ++ sep ++ join sep b.
Proof.
  intros Ha Hb. induction a as [|x a IH]; [contradiction|].
  destruct a as [|y a].
  - simpl app. now rewrite join_cons.
  - change ((x :: y :: a) ++ b)%list with (x :: (y :: a) ++ b)%list.
    rewrite join_cons by discriminate. rewrite IH by discriminate.
    rewrite (join_cons sep x (y :: a)) by discriminate.
    now rewrite !append_assoc.
Qed.

(** X3. The formatter composes: the empty transcript gives the empty string,
    and two non-empty parts formatted apart and joined by a newline give the
    format of the whole. *)
Theorem format_transcript_app :
  format_transcript_with_timestamps [] = ""
  /\ forall a b : list Entry,
       a <> [] -> b <> [] ->
       format_transcript_with_timestamps (a ++ b)
       = format_transcript_with_timestamps a ++ nl
         ++ format_transcript_with_timestamps b.
Proof.
  split; [reflexivity|]. intros a b Ha Hb.
  rewrite !format_as_map, map_app. apply join_app.
  - destruct a; [contradiction|discriminate].
  - destruct b; [contradiction|discriminate].
Qed.

Lemma hms_length (s : Z) :
  0 <= s < 360000 -> String.length (hms s) = 8%nat.
Proof.
  intros H. unfold hms. destruct (hms_minutes_seconds s) as [Hm Hs].
  rewrite !length_append, Hm, Hs, format_02_width; [reflexivity|].
  split; [apply Z.div_pos; lia|apply Z.div_lt_upper_bound; lia].
Qed.

Lemma Qfloor_range (x : Q) (n : Z) :
  (0 <= x)%Q -> (x < inject_Z n)%Q -> 0 <= Qfloor x < n.
Proof.
  intros H0 Hn. split.
  - change 0 with (Qfloor 0). now apply Qfloor_resp_le.
  - rewrite Zlt_Qlt. eapply Qle_lt_trans; [apply Qfloor_le|exact Hn].
Qed.

Lemma rendered_length (e : Entry) :
  (0 <= start e)%Q -> (start e < 360000)%Q ->
  len (rendered e) = 11 + len (text e).
Proof.
  intros H0 H1. unfold rendered, len.
  rewrite !length_append, hms_length by now apply Qfloor_range.
  simpl String.length. lia.
Qed.

Lemma join_length (l : list string) :
  l <> [] ->
  len (join nl l) = fold_right (fun x n => len x + 1 + n) 0 l - 1.
Proof.
  induction l as [|x l IH]; [contradiction|]. intros _.
  destruct l as [|y l].
  - simpl. lia.
  - rewrite join_cons by discriminate. unfold len in *.
    rewrite !length_append. cbn [fold_right].
    specialize (IH ltac:(discriminate)). cbn [fold_right] in IH.
    change (String.length nl) with 1%nat. lia.
Qed.

(** X4. For start times from 0 up to 100 hours every line is the eleven
    characters of its stamp followed by the text, so the length that the
    validation compares with 500 is the sum of the text lengths plus twelve
    per fragment, less one. *)
Theorem format_transcript_length :
  forall transcript : list Entry,
    transcript <> [] ->
    Forall (fun e => (0 <= start e)%Q /\ (start e < 360000)%Q) transcript ->
    len (format_transcript_with_timestamps transcript)
    = lines_length transcript - 1.
Proof.
  intros t Hne Hall. rewrite format_as_map, join_length
    by (destruct t; [contradiction|discriminate]).
  f_equal. clear Hne. induction Hall as [|e t [H0 H1] _ IH]; [reflexivity|].
  simpl. rewrite IH, rendered_length by assumption. lia.
Qed.

Lemma format_transcript_length_witness :
  len (format_transcript_with_timestamps Examples.lecture) = 671.
Proof.
  rewrite format_transcript_length.
  - reflexivity.
  - discriminate.
  - unfold Examples.lecture. apply Forall_forall. intros e He.
    apply list_elem_of_In in He.
    apply in_map_iff in He as [i [<- Hi]]. apply in_seq in Hi. simpl.
    split.
    + apply Qle_bool_iff. unfold Qle_bool. simpl. apply Z.leb_le. lia.
    + unfold Qlt. simpl. lia.
Defined.

Lemma split_no_sep (c : ascii) (x : string) :
  ~ In c (list_ascii_of_string x) -> split c x = [x].
Proof.
  induction x as [|a x IH]; simpl; [reflexivity|]. intros H.
  destruct (Ascii.eqb_spec a c) as [E|E]; [exfalso; apply H; now left|].
  rewrite IH; [reflexivity|]. intros Hx. apply H. now right.
Qed.

Lemma split_piece_sep (c : ascii) (x rest : string) :
  ~ In c (list_ascii_of_string x) ->
  split c (x ++ String c rest) = x :: split c rest.
Proof.
  induction x as [|a x IH]; intros H.
  - simpl. now rewrite Ascii.eqb_refl.
  - change (String a x ++ String c rest) with (String a (x ++ String c rest)).
    cbn [split]. simpl in H.
    destruct (Ascii.eqb_spec a c) as [E|E]; [exfalso; apply H; now left|].
    rewrite IH; [reflexivity|]. intros Hx. apply H. now right.
Qed.

(** Splitting what was joined gives the pieces back, when none of them holds
    the separator. *)
Lemma split_join (c : ascii) (l : list string) :
  l <> [] ->
  Forall (fun x => ~ In c (list_ascii_of_string x)) l ->
  split c (join (String c "") l) = l.
Proof.
  intros Hne Hall. induction Hall as [|x l Hx Hl IH]; [contradiction|].
  destruct l as [|y l].
  - simpl. now apply split_no_sep.
  - rewrite join_cons by discriminate.
    change (String c "" ++ join (String c "") (y :: l))
      with (String c (join (String c "") (y :: l))).
    rewrite split_piece_sep by exact Hx. now rewrite IH.
Qed.

Lemma digits_no_newline (d : Decimal.uint) :
  ~ In LF (list_ascii_of_string (NilEmpty.string_of_uint d)).
Proof.
  induction d; simpl; try (intros [H|H]; [discriminate H|now apply IHd]).
  intros [].
Qed.

Lemma format_02_no_newline (n : Z) :
  ~ In LF (list_ascii_of_string (format_02 n)).
Proof.
  assert (H : forall m, ~ In LF (list_ascii_of_string (str_of_nonneg m))).
  { intros m. unfold str_of_nonneg, NilZero.string_of_uint.
    destruct (N.to_uint (Z.to_N m)) eqn:E; try (rewrite <- E);
      try apply digits_no_newline.
    simpl. intros [X|[]]. discriminate X. }
  unfold format_02. destruct (n <? 0); [|destruct (n <? 10)].
  - simpl. intros [X|X]; [discriminate X|now apply (H (- n))].
  - simpl. intros [X|X]; [discriminate X|now apply (H n)].
  - apply H.
Qed.

Lemma rendered_no_newline (e : Entry) :
  ~ has_newline (text e) -> ~ has_newline (rendered e).
Proof.
  unfold has_newline, rendered, hms. intros Ht.
  rewrite !chars_append, !in_app_iff. simpl.
  pose proof (format_02_no_newline (Qfloor (start e) / 3600)).
  pose proof (format_02_no_newline (Qfloor (start e) mod 3600 / 60)).
  pose proof (format_02_no_newline (Qfloor (start e) mod 60)).
  intros H'. repeat (destruct H' as [H'|H']; try contradiction;
                     try discriminate H').
Qed.

(** X5. Lines and fragments correspond when no caption text holds a newline:
    splitting the formatted transcript at the newlines gives back one line
    per fragment, each the stamp of the fragment followed by its text. *)
Theorem format_transcript_lines :
  forall transcript : list Entry,
    transcript <> [] ->
    Forall (fun e => ~ has_newline (text e)) transcript ->
    split LF (format_transcript_with_timestamps transcript)
    = map format_entry transcript.
Proof.
  intros t Hne Hall. rewrite format_as_map.
  rewrite (map_ext format_entry rendered) by apply format_entry_rendered.
  apply split_join.
  - destruct t; [contradiction|discriminate].
  - clear Hne. induction Hall as [|e t He _ IH]; simpl; constructor;
      [now apply rendered_no_newline|exact IH].
Qed.

Lemma format_transcript_lines_witness :
  split LF (format_transcript_with_timestamps Examples.hello_world)
  = ["[00:00:00] Hello"; "[00:01:05] World"].
Proof.
  rewrite format_transcript_lines.
  - reflexivity.
  - discriminate.
  - repeat constructor; unfold has_newline; simpl; intros H;
      repeat (destruct H as [H|H]; try discriminate H); contradiction.
Defined.

End FormatMore.

(** ** More on identifier extraction: failures, embedded identifiers *)

Module IdMore.
Import Py App Spec PyFacts IdFacts.

Section Extraction.

Variable urlparse : string -> result ParseResult.
Variable unquote : string -> string.

Local Abbreviation get_video_id := (App.get_video_id urlparse unquote).

Lemma startswith_cases (s : string) :
  startswith s ["/embed/"; "/v/"] = true ->
  exists pre rest, (pre = "/embed/" \/ pre = "/v/") /\ s = pre ++ rest.
Proof.
  unfold startswith. simpl. rewrite orb_false_r. intros H.
  apply orb_true_iff in H as [H|H]; apply prefix_append in H as [rest ->];
    eauto 6.
Qed.

(** X1. The extractor fails in three ways only: with the exception of
    [urlparse], with [KeyError('v')] on a [/watch] path whose query gives [v]
    no value, and with [ValueError("Invalid YouTube URL")].  The two
    subscripts [[0]] and [[2]] never raise an [IndexError]. *)
Theorem get_video_id_failures :
  forall (youtube_url : string) (e : exn),
    get_video_id youtube_url = Err e ->
    urlparse youtube_url = Err e
    \/ e = KeyError "v"
    \/ e = ValueError "Invalid YouTube URL".
Proof.
  intros youtube_url e. unfold App.get_video_id.
  destruct (urlparse youtube_url) as [p|e0]; cbn [rbind];
    [|intros [= ->]; now left].
  destruct (hostname_in p ["youtu.be"; "www.youtu.be"]); [discriminate|].
  destruct (hostname_in p ["youtube.com"; "www.youtube.com"]);
    [|intros [= <-]; auto].
  destruct (String.eqb (path p) "/watch").
  - rewrite parse_qs_lookup.
    destruct (Spec.query_values unquote "v" (query p));
      [intros [= <-]; auto|discriminate].
  - destruct (startswith (path p) ["/embed/"; "/v/"]) eqn:Hs;
      [|intros [= <-]; auto].
    destruct (startswith_cases _ Hs) as (pre & rest & Hpre & ->).
    destruct (index_2_after_prefix pre rest Hpre) as [seg ->]. discriminate.
Qed.

(** X2. On a canonical host, a path that begins [/embed/] or [/v/] gives the
    text between that prefix and the next slash, or the end of the path: the
    identifier holds no slash, and what follows it in the path is dropped. *)
Theorem get_video_id_embedded_segment :
  forall (youtube_url : string) (p : ParseResult) (pre rest : string),
    urlparse youtube_url = Ok p ->
    canonical_host p ->
    pre = "/embed/" \/ pre = "/v/" ->
    path p = pre ++ rest ->
    exists segment,
      get_video_id youtube_url = Ok segment
      /\ ~ In "/"%char (list_ascii_of_string segment)
      /\ (rest = segment \/ exists more, rest = segment ++ "/" ++ more).
Proof.
  intros youtube_url p pre rest Hp Hc Hpre Hpath.
  unfold App.get_video_id. rewrite Hp. cbn [rbind].
  destruct (canonical_host_in p Hc) as [-> ->].
  assert (Hnw : String.eqb (path p) "/watch" = false)
    by (rewrite Hpath; destruct Hpre as [-> | ->]; reflexivity).
  assert (Hs : startswith (path p) ["/embed/"; "/v/"] = true).
  { unfold startswith. simpl. rewrite Hpath.
    destruct Hpre as [-> | ->].
    - rewrite (prefix_of_begins_with "/embed/"); [reflexivity|now exists rest].
    - rewrite (prefix_of_begins_with "/v/" ("/v/" ++ rest));
        [now rewrite !orb_true_r|now exists rest]. }
  rewrite Hnw, Hs, Hpath.
  destruct (split_nonempty "/" rest) as [w [ws E]].
  pose proof (join_split "/" rest) as Hj. pose proof (split_pieces "/" rest) as Hn.
  rewrite E in Hj, Hn. apply Forall_cons in Hn as [Hw _].
  exists w. split; [|split; [exact Hw|]].
  - destruct Hpre as [-> | ->]; simpl; change ("" ++ rest) with rest;
      rewrite E; reflexivity.
  - destruct ws as [|y ws]; [left; now rewrite <- Hj|right].
    exists (join "/" (y :: ws)). rewrite <- Hj at 1.
    now rewrite FormatMore.join_cons.
Qed.

End Extraction.

Lemma get_video_id_failures_witness :
  Examples.urlparse_table "https://www.youtube.com/watch?list=PL1"
  = Err (KeyError "v")
  \/ KeyError "v" = KeyError "v"
  \/ KeyError "v" = ValueError "Invalid YouTube URL".
Proof.
  exact (get_video_id_failures Examples.urlparse_table Examples.unquote_plain
           "https://www.youtube.com/watch?list=PL1" (KeyError "v") eq_refl).
Defined.

Lemma get_video_id_embedded_segment_witness :
  exists segment,
    App.get_video_id Examples.urlparse_table Examples.unquote_plain
      "https://www.youtube.com/embed/abc123/extra" = Ok segment
    /\ ~ In "/"%char (list_ascii_of_string segment)
    /\ ("abc123/extra" = segment
        \/ exists more, "abc123/extra" = segment ++ "/" ++ more).
Proof.
  exact (get_video_id_embedded_segment Examples.urlparse_table
           Examples.unquote_plain "https://www.youtube.com/embed/abc123/extra"
           _ "/embed/" "abc123/extra" eq_refl (or_intror eq_refl)
           (or_introl eq_refl) eq_refl).
Defined.

End IdMore.

(** ** More on the metadata: every outcome *)

Module MetadataMore.
Import Py App Spec Examples.

(** X6. What [get_video_description] returns, and when it can raise.  A
    value it returns is the placeholder of a missing key, the placeholder of
    an empty answer, or the title and description of the first item of a 200
    answer; the items after the first are not read.  Without a valid key it
    raises nothing: an exception leaves it only after a valid key was
    obtained. *)
Theorem get_video_description_outcomes :
  forall (env : Env) (video_id : string),
    (forall m, get_video_description env video_id = Ok m ->
       m = not_available \/ m = NaN
       \/ exists k response data item rest sn,
            obtain_api_key (config env) = Ok k
            /\ requests_get env (api_url video_id k) = Ok response
            /\ status_code response = 200
            /\ json response = Ok data
            /\ items data = Some (item :: rest)
            /\ snippet item = Some sn
            /\ m = {| meta_title := snippet_title sn;
                      meta_description := snippet_description sn |})
    /\ (forall e, get_video_description env video_id = Err e ->
          exists k, obtain_api_key (config env) = Ok k)
    /\ (forall k response data item rest sn,
          obtain_api_key (config env) = Ok k ->
          requests_get env (api_url video_id k) = Ok response ->
          status_code response = 200 ->
          json response = Ok data ->
          items data = Some (item :: rest) ->
          snippet item = Some sn ->
          get_video_description env video_id
          = Ok {| meta_title := snippet_title sn;
                  meta_description := snippet_description sn |}).
Proof.
  intros env video_id. unfold get_video_description.
  split; [|split].
  - intros m.
    destruct (obtain_api_key (config env)) as [k|e0] eqn:Hk;
      [|intros [= <-]; auto].
    destruct (requests_get env (api_url video_id k)) as [response|e0] eqn:Hr;
      cbn [rbind]; [|discriminate].
    destruct (Z.eqb_spec (status_code response) 200) as [Hs|Hs];
      [|intros [= <-]; auto].
    destruct (json response) as [data|e0] eqn:Hj; cbn [rbind]; [|discriminate].
    destruct (items data) as [[|item rest]|] eqn:Hi;
      try (intros [= <-]; now auto).
    destruct (snippet item) as [sn|] eqn:Hsn; [|discriminate].
    intros [= <-]. right. right.
    exists k, response, data, item, rest, sn.
    repeat split; first [assumption|reflexivity].
  - intros e.
    destruct (obtain_api_key (config env)) as [k|e0] eqn:Hk; [|discriminate].
    intros _. now exists k.
  - intros k response data item rest sn -> ->. cbn [rbind].
    intros -> ->. cbn [rbind]. intros -> ->. reflexivity.
Qed.

Lemma get_video_description_outcomes_witness :
  get_video_description env_lecture "abc123"
  = Ok {| meta_title := "  A lecture "; meta_description := "Recorded talk" |}.
Proof.
  destruct (get_video_description_outcomes env_lecture "abc123")
    as (_ & _ & H).
  exact (H "AIzaSyExampleKey0123" api_answer _ _ [] _
           eq_refl eq_refl eq_refl eq_refl eq_refl eq_refl).
Defined.

End MetadataMore.

(** ** More on the endpoint: every outcome of a request, and what requests
    keep *)

Module HandlerMore.
Import Py App Spec Examples.

(** The exception the endpoint raises for a cause [e]. *)
Definition server_fault (e : exn) : exn :=
  HTTPException 500 ("Failed to obtain transcript: " ++ str_exn e).

Section Handler.

Variable urlparse : string -> result ParseResult.
Variable unquote : string -> string.

Local Abbreviation get_video_id := (App.get_video_id urlparse unquote).
Local Abbreviation get_transcript := (App.get_transcript urlparse unquote).

(** The six ways a request can go, by the step that decides it. *)
Inductive outcome (env : Env) (url : string) (w : World)
  : result Reply * World -> Prop :=
| BadUrl (e : exn) :
    get_video_id url = Err e ->
    outcome env url w (Err (server_fault e), w)
| Hit (v : string) (data : VideoData) :
    get_video_id url = Ok v ->
    get_video_from_db v (db w) = Some data ->
    outcome env url w
      (Ok {| reply_transcript := data_transcript data |},
       logged w [EvCacheLookup v])
| NoCaptions (v : string) (e : exn) :
    get_video_id url = Ok v ->
    get_video_from_db v (db w) = None ->
    YouTubeTranscriptApi_get_transcript env v ["en"; "fi"] = Err e ->
    outcome env url w
      (Err (server_fault e),
       logged w [EvCacheLookup v; EvFetchTranscript v])
| NoMetadata (v : string) (captions : list Entry) (e : exn) :
    get_video_id url = Ok v ->
    get_video_from_db v (db w) = None ->
    YouTubeTranscriptApi_get_transcript env v ["en"; "fi"] = Ok captions ->
    get_video_description env v = Err e ->
    outcome env url w
      (Err (server_fault e),
       logged w [EvCacheLookup v; EvFetchTranscript v; EvFetchMetadata v])
| TooShort (v : string) (captions : list Entry) (m : Metainfo) :
    get_video_id url = Ok v ->
    get_video_from_db v (db w) = None ->
    YouTubeTranscriptApi_get_transcript env v ["en"; "fi"] = Ok captions ->
    get_video_description env v = Ok m ->
    len (format_transcript_with_timestamps captions) <= 500 ->
    outcome env url w
      (Err (server_fault (ValueError "Transcript too short!")),
       logged w [EvCacheLookup v; EvFetchTranscript v; EvFetchMetadata v;
                 EvFormat; EvValidate])
| Stored (v : string) (captions : list Entry) (m : Metainfo) :
    get_video_id url = Ok v ->
    get_video_from_db v (db w) = None ->
    YouTubeTranscriptApi_get_transcript env v ["en"; "fi"] = Ok captions ->
    get_video_description env v = Ok m ->
    500 < len (format_transcript_with_timestamps captions) ->
    outcome env url w
      (Ok {| reply_transcript :=
               titled (meta_title m)
                 (format_transcript_with_timestamps captions) |},
       {| db := insert_video_data (datetime_now env) v url (meta_title m)
                  (meta_description m)
                  (titled (meta_title m)
                     (format_transcript_with_timestamps captions)) (db w);
          trace := (trace w ++ [EvCacheLookup v; EvFetchTranscript v;
                                EvFetchMetadata v; EvFormat; EvValidate;
                                EvPersist v])%list |}).

Ltac run_handler :=
  unfold App.get_transcript, try_except, get_transcript_try, bind, lift, log,
    read_db, write_db, ret, raise; cbn [db trace].

Lemma get_transcript_outcome (env : Env) (url : string) (w : World) :
  outcome env url w (get_transcript env url w).
Proof.
  destruct (get_video_id url) as [v|e] eqn:Hid.
  - destruct (get_video_from_db v (db w)) as [data|] eqn:Hdb.
    + rewrite (HandlerFacts.get_transcript_hit _ _ env _ _ _ _ Hid Hdb).
      now apply Hit.
    + destruct (YouTubeTranscriptApi_get_transcript env v ["en"; "fi"])
        as [captions|e] eqn:Hcap.
      * destruct (get_video_description env v) as [m|e] eqn:Hm.
        -- rewrite (HandlerFacts.get_transcript_miss _ _ env _ _ _ _ _
                      Hid Hdb Hcap Hm).
           destruct (Z.leb_spec
                       (len (format_transcript_with_timestamps captions)) 500).
           ++ now apply (TooShort env url w v captions m).
           ++ now apply (Stored env url w v captions m).
        -- replace (get_transcript env url w)
             with (@Err Reply (server_fault e),
                   logged w [EvCacheLookup v; EvFetchTranscript v;
                             EvFetchMetadata v]).
           ++ now apply (NoMetadata env url w v captions e).
           ++ run_handler. rewrite Hid, Hdb, Hcap, Hm. unfold logged.
              cbn [db trace]. now rewrite <- !app_assoc.
      * replace (get_transcript env url w)
          with (@Err Reply (server_fault e),
                logged w [EvCacheLookup v; EvFetchTranscript v]).
        -- now apply NoCaptions.
        -- run_handler. rewrite Hid, Hdb, Hcap. unfold logged.
           cbn [db trace]. now rewrite <- !app_assoc.
  - replace (get_transcript env url w) with (@Err Reply (server_fault e), w).
    + now apply BadUrl.
    + run_handler. rewrite Hid. reflexivity.
Qed.

(** X11. A request that fails leaves the table as it was, and fails with
    status 500 and the detail ["Failed to obtain transcript: "] followed by
    the text of its cause: the error of the extractor, of the caption service,
    of the metadata fetch, or ["Transcript too short!"]. *)
Theorem request_failure_keeps_store :
  forall (env : Env) (url : string) (w w' : World) (e : exn),
    get_transcript env url w = (Err e, w') ->
    db w' = db w
    /\ exists cause,
         e = HTTPException 500
               ("Failed to obtain transcript: " ++ str_exn cause)
         /\ (get_video_id url = Err cause
             \/ exists v,
                  get_video_id url = Ok v
                  /\ get_video_from_db v (db w) = None
                  /\ (YouTubeTranscriptApi_get_transcript env v ["en"; "fi"]
                      = Err cause
                      \/ get_video_description env v = Err cause
                      \/ cause = ValueError "Transcript too short!")).
Proof.
  intros env url w w' e H.
  pose proof (get_transcript_outcome env url w) as O. rewrite H in O.
  inversion O; subst; (split; [reflexivity|]); eexists;
    (split; [reflexivity|]); eauto 8.
Qed.

(** X12. A request writes at most under the identifier of its own URL, and
    only when nothing is stored there: what is stored under any other
    identifier, and any record that is already stored, reads the same after
    the request, whatever the request and its outcome. *)
Theorem request_keeps_stored_records :
  forall (env : Env) (url other : string) (w : World),
    get_video_id url <> Ok other \/ get_video_from_db other (db w) <> None ->
    get_video_from_db other (db (snd (get_transcript env url w)))
    = get_video_from_db other (db w).
Proof.
  intros env url other w Hother.
  destruct (get_transcript_outcome env url w); try reflexivity.
  cbn [snd db]. unfold get_video_from_db.
  rewrite StoreMore.select_other; [reflexivity|].
  intros ->. destruct Hother as [Hx|Hx]; contradiction.
Qed.

Definition serve (w : World) (r : Request) : World :=
  snd (get_transcript (request_env r) (request_url r) w).

(** What holds of every row the endpoint wrote. *)
Definition row_ok (r : Sqlite.Row) : Prop :=
  get_video_id (Sqlite.url r) = Ok (Sqlite.video_id r)
  /\ exists body,
       500 < len body /\ Sqlite.transcript r = titled (Sqlite.title r) body.

Lemma Forall_kept {A} (P : A -> Prop) (f : A -> bool) (l : list A) :
  Forall P l -> Forall P (List.filter f l).
Proof.
  induction 1 as [|x l Hx _ IH]; simpl; [constructor|].
  destruct (f x); [now constructor|exact IH].
Qed.

Lemma serve_keeps_rows_ok (w : World) (r : Request) :
  Forall row_ok (Sqlite.rows (db w)) /\ NoDup (Sqlite.select_video_ids (db w)) ->
  Forall row_ok (Sqlite.rows (db (serve w r)))
  /\ NoDup (Sqlite.select_video_ids (db (serve w r))).
Proof.
  intros [Hrows Hnd]. unfold serve.
  destruct (get_transcript_outcome (request_env r) (request_url r) w);
    try (split; assumption).
  cbn [snd db]. split; [|now apply StoreFacts.video_ids_after_insert].
  rewrite StoreFacts.rows_insert. apply Forall_app. split.
  - now apply Forall_kept.
  - constructor; [|constructor]. split; [assumption|]. simpl. eauto.
Qed.

(** X13. An invariant of the endpoint: starting from the table that
    [init_db] creates, after any sequence of requests every row has a URL
    from which the extractor gives the row's identifier, and a transcript
    made of the title line, a body longer than 500 characters and the end
    marker; and no two rows share an identifier. *)
Theorem served_rows_are_valid :
  forall requests : list Request,
    let w := fold_left serve requests {| db := init_db None; trace := [] |} in
    Forall row_ok (Sqlite.rows (db w))
    /\ NoDup (video_ids (get_database_status (db w))).
Proof.
  intros requests. cbv zeta.
  assert (H : forall w0,
             Forall row_ok (Sqlite.rows (db w0))
             /\ NoDup (Sqlite.select_video_ids (db w0)) ->
             Forall row_ok (Sqlite.rows (db (fold_left serve requests w0)))
             /\ NoDup (Sqlite.select_video_ids
                         (db (fold_left serve requests w0)))).
  { induction requests as [|r requests IH]; intros w0 H0; [exact H0|].
    simpl. apply IH. now apply serve_keeps_rows_ok. }
  apply H. split; constructor.
Qed.

(** X14. Without a usable key the request still succeeds: with captions
    whose formatted text passes the length check, the reply and the stored
    transcript carry the title line [Title: not available], and title and
    description are stored as ["not available"]. *)
Theorem request_without_key :
  forall (env : Env) (url v : string) (captions : list Entry) (w : World)
         (e : exn),
    get_video_id url = Ok v ->
    get_video_from_db v (db w) = None ->
    YouTubeTranscriptApi_get_transcript env v ["en"; "fi"] = Ok captions ->
    obtain_api_key (config env) = Err e ->
    500 < len (format_transcript_with_timestamps captions) ->
    let output := "Title: not available" ++ nl ++ nl
                  ++ format_transcript_with_timestamps captions
                  ++ nl ++ "END_OF_TRANSCRIPT" in
    fst (get_transcript env url w) = Ok {| reply_transcript := output |}
    /\ get_video_from_db v (db (snd (get_transcript env url w)))
       = Some {| data_title := "not available";
                 data_description := "not available";
                 data_transcript := output |}.
Proof.
  intros env url v captions w e Hid Hdb Hcap Hkey Hlen output.
  assert (Hm : get_video_description env v = Ok not_available)
    by (unfold get_video_description; now rewrite Hkey).
  rewrite (HandlerFacts.get_transcript_miss _ _ env _ _ _ _ _ Hid Hdb Hcap Hm).
  destruct (Z.leb_spec (len (format_transcript_with_timestamps captions)) 500);
    [lia|].
  cbn [fst snd db]. split; [reflexivity|].
  apply StoreFacts.insert_lookup.
Qed.

Lemma not_stored_not_listed (v : string) (t : Sqlite.Table) :
  get_video_from_db v t = None -> v ∉ Sqlite.select_video_ids t.
Proof.
  unfold get_video_from_db, Sqlite.select_by_video_id, Sqlite.select_video_ids.
  destruct (List.find _ (Sqlite.rows t)) eqn:Hfind; [discriminate|].
  intros _ Hin. apply list_elem_of_In, in_map_iff in Hin as [r [E Hr]].
  apply (find_none _ _ Hfind) in Hr. rewrite E, String.eqb_refl in Hr.
  discriminate.
Qed.

(** X15. The status after a request: a request that fails, and one that is
    served from the store, leave the status as it was; a request that
    succeeds for an identifier that was not stored adds one to
    [total_videos] and that identifier, which was not listed, to [video_ids]
    (up to their order, which the query leaves open). *)
Theorem database_status_after_request :
  forall (env : Env) (url : string) (w : World),
    let result := get_transcript env url w in
    let before := get_database_status (db w) in
    let after := get_database_status (db (snd result)) in
    (forall e, fst result = Err e -> after = before)
    /\ (forall v data,
          get_video_id url = Ok v ->
          get_video_from_db v (db w) = Some data -> after = before)
    /\ (forall v reply,
          get_video_id url = Ok v ->
          get_video_from_db v (db w) = None ->
          fst result = Ok reply ->
          (v ∉ video_ids before)
          /\ Permutation (video_ids after) (v :: video_ids before)
          /\ total_videos after = total_videos before + 1).
Proof.
  intros env url w. cbv zeta.
  destruct (get_transcript_outcome env url w) as
    [e0 Hid|v0 data0 Hid Hdb|v0 e0 Hid Hdb Hcap|v0 caps e0 Hid Hdb Hcap Hm
    |v0 caps m Hid Hdb Hcap Hm Hlen|v0 caps m Hid Hdb Hcap Hm Hlen];
    cbn [fst snd db logged].
  1-5: split; [reflexivity|split; [reflexivity|]];
       intros v reply Hv Hnone; try discriminate;
       rewrite Hid in Hv; injection Hv as <-; congruence.
  split; [discriminate|]. split.
  - intros v data Hv Hsome. rewrite Hid in Hv. injection Hv as <-. congruence.
  - intros v reply Hv Hnone _. rewrite Hid in Hv. injection Hv as <-.
    split; [now apply not_stored_not_listed|].
    unfold get_database_status. cbn [video_ids total_videos].
    unfold get_video_from_db in Hnone.
    destruct (Sqlite.select_by_video_id v0 (db w)) eqn:Hsel; [discriminate|].
    pose proof (StoreMore.select_none_filter _ _ Hsel) as Hf.
    unfold Sqlite.select_video_ids, Sqlite.select_count.
    rewrite StoreFacts.rows_insert, StoreFacts.kept_rows, Hf.
    rewrite map_app, length_app. simpl. split; [|lia].
    symmetry. apply Permutation_cons_append.
Qed.

End Handler.

Lemma request_failure_keeps_store_witness :
  db (snd (App.get_transcript urlparse_table unquote_plain env_offline
             "https://youtu.be/abc123" fresh)) = Sqlite.empty
  /\ exists cause,
       fst (App.get_transcript urlparse_table unquote_plain env_offline
              "https://youtu.be/abc123" fresh)
       = Err (HTTPException 500
                ("Failed to obtain transcript: " ++ str_exn cause))
       /\ get_video_description env_offline "abc123" = Err cause.
Proof.
  destruct (request_failure_keeps_store urlparse_table unquote_plain
              env_offline "https://youtu.be/abc123" fresh _ _ eq_refl)
    as [Hdb [cause [He Hcause]]].
  split; [exact Hdb|]. exists cause. split.
  - rewrite <- He. reflexivity.
  - destruct Hcause as [Hc|[v [Hv [_ [Hc|[Hc|Hc]]]]]].
    + discriminate Hc.
    + injection Hv as <-. discriminate Hc.
    + injection Hv as <-. exact Hc.
    + subst cause. discriminate He.
Defined.

Lemma request_keeps_stored_records_witness :
  get_video_from_db "abc123"
    (db (snd (App.get_transcript urlparse_table unquote_plain env_lecture
                "https://www.youtube.com/watch?v=aQ4yQXeB1Ss"
                (serve urlparse_table unquote_plain fresh
                   {| request_env := env_lecture;
                      request_url := "https://youtu.be/abc123" |}))))
  = get_video_from_db "abc123"
      (db (serve urlparse_table unquote_plain fresh
             {| request_env := env_lecture;
                request_url := "https://youtu.be/abc123" |})).
Proof.
  apply request_keeps_stored_records. left. vm_compute. discriminate.
Defined.

Lemma request_without_key_witness :
  fst (App.get_transcript urlparse_table unquote_plain
         (env_of ∅ (Ok lecture) (Ok api_answer)) "https://youtu.be/abc123"
         fresh)
  = Ok {| reply_transcript :=
            "Title: not available" ++ nl ++ nl
            ++ format_transcript_with_timestamps lecture
            ++ nl ++ "END_OF_TRANSCRIPT" |}.
Proof.
  assert (Hk : obtain_api_key
                 (config (env_of ∅ (Ok lecture) (Ok api_answer)))
               = Err (KeyError "YOUTUBE_KEY")) by reflexivity.
  destruct (request_without_key urlparse_table unquote_plain
              (env_of ∅ (Ok lecture) (Ok api_answer))
              "https://youtu.be/abc123" "abc123" lecture fresh
              (KeyError "YOUTUBE_KEY") eq_refl eq_refl eq_refl Hk)
    as [H _]; [vm_compute; reflexivity|exact H].
Defined.

End HandlerMore.

(** ** More on [/watch] URLs: the other parameters of the query *)

Module QueryMore.
Import Py App Spec PyFacts IdFacts.

Section Query.

Variable urlparse : string -> result ParseResult.
Variable unquote : string -> string.

Local Abbreviation get_video_id := (App.get_video_id urlparse unquote).
Local Abbreviation parse_qsl := (App.parse_qsl unquote).
Local Abbreviation query_values := (Spec.query_values unquote).

Lemma split_app_sep (c : ascii) (a b : string) :
  split c (a ++ String c b) = (split c a ++ split c b)%list.
Proof.
  induction a as [|x a IH].
  - simpl. now rewrite Ascii.eqb_refl.
  - change (String x a ++ String c b) with (String x (a ++ String c b)).
    cbn [split]. rewrite IH.
    destruct (Ascii.eqb x c); [reflexivity|].
    destruct (split_nonempty c a) as [w [ws ->]]. reflexivity.
Qed.

(** One field of the query, as the loop of [parse_qsl] treats it. *)
Let field (r : list (string * string)) (name_value : string)
  : list (string * string) :=
  if String.eqb name_value "" then r
  else match split1 "=" name_value with
       | [n; v] =>
           if 0 <? len v then
             (r ++ [(unquote (replace "+" " " n),
                     unquote (replace "+" " " v))])%list
           else r
       | _ => r
       end.

Lemma fields_acc (l : list string) (acc : list (string * string)) :
  fold_left field l acc = (acc ++ fold_left field l [])%list.
Proof.
  revert acc. induction l as [|x l IH]; intros acc; simpl.
  - now rewrite app_nil_r.
  - rewrite IH, (IH (field [] x)). rewrite app_assoc. f_equal.
    unfold field. destruct (String.eqb x ""); [now rewrite app_nil_r|].
    destruct (split1 "=" x) as [|n [|v [|]]]; try now rewrite app_nil_r.
    destruct (0 <? len v); [reflexivity|now rewrite app_nil_r].
Qed.

Lemma parse_qsl_fields (qs : string) :
  parse_qsl qs = fold_left field (split "&" qs) [].
Proof.
  unfold App.parse_qsl. destruct (String.eqb_spec qs "") as [->|_];
    reflexivity.
Qed.

Lemma parse_qsl_app (a b : string) :
  parse_qsl (a ++ "&" ++ b) = (parse_qsl a ++ parse_qsl b)%list.
Proof.
  rewrite !parse_qsl_fields.
  change (a ++ "&" ++ b) with (a ++ String "&" b).
  now rewrite split_app_sep, fold_left_app, fields_acc.
Qed.

(** X16. On a [/watch] URL the first parameter [v] with a value decides: for
    a query [a&b], if [a] gives [v] a value the identifier is the first such
    value and [b] is not looked at; if [a] gives none, the identifier is
    what [b] alone would give. *)
Theorem watch_first_v_decides :
  forall (youtube_url : string) (p : ParseResult) (a b : string),
    urlparse youtube_url = Ok p ->
    canonical_host p ->
    path p = "/watch" ->
    query p = a ++ "&" ++ b ->
    get_video_id youtube_url
    = match query_values "v" a with
      | v :: _ => Ok v
      | [] => match query_values "v" b with
              | v :: _ => Ok v
              | [] => Err (KeyError "v")
              end
      end.
Proof.
  intros youtube_url p a b Hp Hc Hpath Hq.
  unfold App.get_video_id. rewrite Hp. cbn [rbind].
  destruct (canonical_host_in p Hc) as [-> ->]. rewrite Hpath. simpl.
  rewrite parse_qs_lookup, Hq. unfold Spec.query_values.
  rewrite parse_qsl_app, List.filter_app, map_app.
  destruct (map snd (List.filter _ (parse_qsl a))) as [|v vs]; simpl.
  - now destruct (map snd (List.filter _ (parse_qsl b))).
  - reflexivity.
Qed.

End Query.

Lemma watch_first_v_decides_witness :
  App.get_video_id Examples.urlparse_table Examples.unquote_plain
    "https://www.youtube.com/watch?t=10&v=&v=first&v=second"
  = Ok "first".
Proof.
  exact (watch_first_v_decides Examples.urlparse_table Examples.unquote_plain
           "https://www.youtube.com/watch?t=10&v=&v=first&v=second" _
           "t=10" "v=&v=first&v=second" eq_refl (or_intror eq_refl)
           eq_refl eq_refl).
Defined.

End QueryMore.
